(** * Pendulum simulation core: a shallow embedding of
      [pendel-web/server/physics.py] and [pendel-web/server/sim_session.py]

    Python floats are IEEE-754 binary64 numbers: they are modelled by Rocq's
    primitive [float], whose operations are the same binary64 operations.
    Python exceptions are modelled by an error monad; the mutable session
    object by a state-and-error monad over a record. The trigonometric
    functions of the C library are not available in Rocq: they are an
    interface ([Libm]) the development is parametric in. *)

From Stdlib Require Import ZArith Ascii String Floats.
From stdpp Require Import base option list strings gmap.

Set Warnings "-inexact-float".
Set Default Proof Using "Type*".

Open Scope float_scope.

(** ** Python exceptions *)

Inductive exn : Type :=
  | KeyError (key : string)
  | ValueError
  | IndexError
  | OverflowError
  | ZeroDivisionError
  | UnboundLocalError (var : string).

Inductive result (A : Type) : Type :=
  | Ok (a : A)
  | Raise (e : exn).
Arguments Ok {A} a.
Arguments Raise {A} e.

Global Instance result_ret : MRet result := @Ok.
Global Instance result_bind : MBind result := λ A B f m,
  match m with Ok a => f a | Raise e => Raise e end.

(** [try: m except Exception: h] *)
Definition try_except {A} (m : result A) (h : result A) : result A :=
  match m with Ok a => Ok a | Raise _ => h end.

(** ** Python builtins on floats, ints, lists and dicts *)

Module Py.

(** [max(a, b)] keeps its first argument unless the second is greater;
    [min(a, b)] keeps its first argument unless the second is smaller.
    With a NaN argument the comparison is false and the first one stays. *)
Definition max (a b : float) : float := if a <? b then b else a.
Definition min (a b : float) : float := if b <? a then b else a.

(** [x / y] on floats raises on a zero divisor. *)
Definition div (x y : float) : result float :=
  if y =? 0 then Raise ZeroDivisionError else Ok (x / y).

(** The value of a finite float as [m * 2^e]. *)
Definition signed_mantissa (s : bool) (m : positive) : Z :=
  if s then Z.neg m else Z.pos m.

(** [math.ceil(x)]: the least integer not below [x]; infinities and NaN
    have no integer value. *)
Definition ceil (x : float) : result Z :=
  match Prim2SF x with
  | S754_nan => Raise ValueError
  | S754_infinity _ => Raise OverflowError
  | S754_zero _ => Ok 0%Z
  | S754_finite s m e =>
      let v := signed_mantissa s m in
      Ok (if (0 <=? e)%Z then v * 2 ^ e else - ((- v) / 2 ^ (- e)))%Z
  end.

(** [float(n)] for an int: the nearest binary64 number. *)
Definition float_of_int (n : Z) : float :=
  SF2Prim (binary_normalize prec emax n 0 false).

(** C's [fmod]: the exact remainder of the truncated division, with the
    sign of [x]. *)
Definition fmod (x y : float) : float :=
  match Prim2SF x, Prim2SF y with
  | S754_nan, _ | _, S754_nan => nan
  | S754_infinity _, _ => nan
  | _, S754_zero _ => nan
  | S754_zero _, _ => x
  | S754_finite _ _ _, S754_infinity _ => x
  | S754_finite sx mx ex, S754_finite _ my ey =>
      let e := Z.min ex ey in
      let X := (Z.pos mx * 2 ^ (ex - e))%Z in
      let Y := (Z.pos my * 2 ^ (ey - e))%Z in
      let R := (X mod Y)%Z in
      if (R =? 0)%Z then (if sx then PrimFloat.neg_zero else PrimFloat.zero)
      else SF2Prim (binary_normalize prec emax (if sx then - R else R)%Z e false)
  end.

(** [x % y] on floats, for a divisor that is not zero: [fmod] moved to the
    sign of the divisor. *)
Definition mod_ (x y : float) : float :=
  let m := fmod x y in
  if m =? 0 then (if get_sign y then PrimFloat.neg_zero else PrimFloat.zero)
  else if xorb (y <? 0) (m <? 0) then m + y
  else m.

(** [l[i]] *)
Definition item {A} (l : list A) (i : nat) : result A :=
  match l !! i with Some a => Ok a | None => Raise IndexError end.

(** [d[k]] and [d.get(k, dflt)] *)
Definition getitem (d : gmap string float) (k : string) : result float :=
  match d !! k with Some v => Ok v | None => Raise (KeyError k) end.
Definition get (d : gmap string float) (k : string) (dflt : float) : float :=
  default dflt (d !! k).

(** [a, b = l] and [a, b, c, d = l] *)
Definition unpack2 {A} (l : list A) : result (A * A) :=
  match l with [a; b] => Ok (a, b) | _ => Raise ValueError end.
Definition unpack4 {A} (l : list A) : result (A * A * A * A) :=
  match l with [a; b; c; d] => Ok (a, b, c, d) | _ => Raise ValueError end.

(** [[f(i) for i in range(n)]] *)
Fixpoint comprehension_from {A} (f : nat → result A) (i n : nat) : result (list A) :=
  match n with
  | O => Ok []
  | S n' => a ← f i; l ← comprehension_from f (S i) n'; mret (a :: l)
  end.
Definition comprehension {A} (n : nat) (f : nat → result A) : result (list A) :=
  comprehension_from f 0 n.

(** [for _ in range(n): s = body(s)] *)
Fixpoint for_range {A} (n : nat) (body : A → result A) (s : A) : result A :=
  match n with
  | O => Ok s
  | S n' => s' ← body s; for_range n' body s'
  end.

(** [s.lower()] and [s.startswith(p)], on ASCII text. *)
Definition lower_ascii (c : ascii) : ascii :=
  let n := nat_of_ascii c in
  if ((65 <=? n) && (n <=? 90))%nat then ascii_of_nat (n + 32) else c.
Fixpoint lower (s : string) : string :=
  match s with
  | EmptyString => EmptyString
  | String c s' => String (lower_ascii c) (lower s')
  end.
Definition startswith (s p : string) : bool := String.prefix p s.

End Py.

(** ** The [math] module *)

Definition math_pi : float := 0x1.921fb54442d18p+1.

(** [math.radians(x)] multiplies by the constant [pi / 180]. *)
Definition math_radians (x : float) : float := x * (math_pi / 180).

(** The C library's sine and cosine. *)
Class Libm := { libm_sin : float → float; libm_cos : float → float }.

(** CPython wraps a libm function of one argument: a NaN result from an
    argument that is not NaN, or an infinite result from a finite argument,
    is a [ValueError] (sine and cosine of an infinity). *)
Definition math_1 (func : float → float) (x : float) : result float :=
  let r := func x in
  if is_nan r && negb (is_nan x) then Raise ValueError
  else if is_infinity r && is_finite x then Raise ValueError
  else Ok r.

Definition math_sin `{Libm} : float → result float := math_1 libm_sin.
Definition math_cos `{Libm} : float → result float := math_1 libm_cos.

(** ** physics.py *)

Abbreviation State := (list float).
Abbreviation Params := (gmap string float).
Abbreviation Deriv := (State → Params → result State).

Section Physics.
Context `{Libm}.

(** [single_pendulum_derivatives]: [[dtheta, domega]] of a simple
    pendulum. The divisor [max(1e-9, l)] is never zero. *)
Definition single_pendulum_derivatives (state : State) (params : Params)
    : result State :=
  '(theta, omega) ← Py.unpack2 (take 2 state);
  g ← Py.getitem params "g";
  l ← Py.getitem params "l1";
  let damping := Py.get params "damping" 0 in
  let dtheta := omega in
  sin_theta ← math_sin theta;
  let domega := (- (g / Py.max 1e-9 l)) * sin_theta - damping * omega in
  mret [dtheta; domega].

(** [double_pendulum_derivatives]: [[dth1, dw1, dth2, dw2]]. *)
Definition double_pendulum_derivatives (state : State) (params : Params)
    : result State :=
  '(th1, w1, th2, w2) ← Py.unpack4 (take 4 state);
  m1 ← Py.getitem params "m1";
  m2 ← Py.getitem params "m2";
  l1 ← Py.getitem params "l1";
  l2 ← Py.getitem params "l2";
  g ← Py.getitem params "g";
  let damping := Py.get params "damping" 0 in
  let delta := th1 - th2 in
  sin_delta ← math_sin delta;
  cos_delta ← math_cos delta;
  cos_2delta ← math_cos (2 * delta);
  let denom := 2 * m1 + m2 - m2 * cos_2delta in
  let denom := if abs denom <? 1e-9 then 1e-9 else denom in
  (* first mass angular acceleration *)
  sin_th1 ← math_sin th1;
  let num1 := (- g) * (2 * m1 + m2) * sin_th1 in
  sin_th1_2th2 ← math_sin (th1 - 2 * th2);
  let num1 := num1 - m2 * g * sin_th1_2th2 in
  let num1 := num1 - 2 * sin_delta * m2 * (w2 * w2 * l2 + w1 * w1 * l1 * cos_delta) in
  q1 ← Py.div num1 (l1 * denom);
  let a1 := q1 - damping * w1 in
  (* second mass angular acceleration *)
  cos_th1 ← math_cos th1;
  let num2 := 2 * sin_delta *
              (w1 * w1 * l1 * (m1 + m2) + g * (m1 + m2) * cos_th1
               + w2 * w2 * l2 * m2 * cos_delta) in
  q2 ← Py.div num2 (l2 * denom);
  let a2 := q2 - damping * w2 in
  mret [w1; a1; w2; a2].

(** [rk4_step]: one classical RK4 step for a state of any dimension. *)
Definition rk4_step (state : State) (dt : float) (params : Params)
    (deriv_func : Deriv) : result State :=
  let s1 := state in
  let n := length s1 in
  k1 ← deriv_func s1 params;
  s2 ← Py.comprehension n (λ i,
         x ← Py.item s1 i; k ← Py.item k1 i; mret (x + 0.5 * dt * k));
  k2 ← deriv_func s2 params;
  s3 ← Py.comprehension n (λ i,
         x ← Py.item s1 i; k ← Py.item k2 i; mret (x + 0.5 * dt * k));
  k3 ← deriv_func s3 params;
  s4 ← Py.comprehension n (λ i,
         x ← Py.item s1 i; k ← Py.item k3 i; mret (x + dt * k));
  k4 ← deriv_func s4 params;
  Py.comprehension n (λ i,
    x ← Py.item s1 i;
    a ← Py.item k1 i; b ← Py.item k2 i; c ← Py.item k3 i; d ← Py.item k4 i;
    mret (x + dt * (a + 2 * b + 2 * c + d) / 6)).

(** [symplectic_euler_step]: velocities first, then angles with the new
    velocities. Other lengths fall back to explicit Euler. *)
Definition symplectic_euler_step (state : State) (dt : float)
    (params : Params) (deriv_func : Deriv) : result State :=
  let n := length state in
  if (n =? 4)%nat then
    '(th1, w1, th2, w2) ← Py.unpack4 (take 4 state);
    d ← deriv_func [th1; w1; th2; w2] params;
    a1 ← Py.item d 1;
    a2 ← Py.item d 3;
    let w1 := w1 + dt * a1 in
    let w2 := w2 + dt * a2 in
    let th1 := th1 + dt * w1 in
    let th2 := th2 + dt * w2 in
    mret [th1; w1; th2; w2]
  else if (n =? 2)%nat then
    '(th, w) ← Py.unpack2 (take 2 state);
    d ← deriv_func [th; w] params;
    a ← Py.item d 1;
    let w := w + dt * a in
    let th := th + dt * w in
    mret [th; w]
  else
    d ← deriv_func state params;
    Py.comprehension n (λ i,
      x ← Py.item state i; k ← Py.item d i; mret (x + dt * k)).

(** The number of sub-steps both integration paths use:
    [max(1, int(math.ceil(abs(dt_total) / max(1e-9, dt_max))))]. *)
Definition substep_count (dt_total dt_max : float) : result Z :=
  n ← Py.ceil (abs dt_total / Py.max 1e-9 dt_max);
  mret (Z.max 1 n).

(** [rk4_integrate_substeps]: [dt_total] split into equal sub-steps. The
    divisor [steps] is at least 1. *)
Definition rk4_integrate_substeps (state : State) (dt_total dt_max : float)
    (params : Params) (deriv_func : Deriv) : result State :=
  steps ← substep_count dt_total dt_max;
  let dt := dt_total / Py.float_of_int steps in
  Py.for_range (Z.to_nat steps)
    (λ s, rk4_step s dt params deriv_func) state.

(** [choose_dt_max]: a step bound from the largest angular velocity. The
    divisor [1.0 + w_max] is at least 1 or NaN. *)
Definition choose_dt_max (state : State) (base_dt max_dt : float)
    : result float :=
  w_max ←
    (if (4 <=? length state)%nat then
       w1 ← Py.item state 1; w2 ← Py.item state 3;
       mret (Py.max (abs w1) (abs w2))
     else if (1 <? length state)%nat then
       w ← Py.item state 1; mret (abs w)
     else mret 0);
  if w_max <=? 0.1 then mret max_dt
  else
    let dt := Py.min max_dt (base_dt / (1 + w_max)) in
    mret (Py.max 1e-4 dt).

(** [total_energy]: kinetic plus potential energy. *)
Definition total_energy (state : State) (params : Params) (mode : string)
    : result float :=
  g ← Py.getitem params "g";
  if String.eqb mode "double" && (4 <=? length state)%nat then
    '(th1, w1, th2, w2) ← Py.unpack4 (take 4 state);
    m1 ← Py.getitem params "m1";
    m2 ← Py.getitem params "m2";
    l1 ← Py.getitem params "l1";
    l2 ← Py.getitem params "l2";
    cos_th1 ← math_cos th1;
    let x1dot := l1 * w1 * cos_th1 in
    sin_th1 ← math_sin th1;
    let y1dot := (- l1) * w1 * sin_th1 in
    cos_th2 ← math_cos th2;
    let x2dot := x1dot + l2 * w2 * cos_th2 in
    sin_th2 ← math_sin th2;
    let y2dot := y1dot - l2 * w2 * sin_th2 in
    let KE := 0.5 * m1 * (x1dot * x1dot + y1dot * y1dot)
              + 0.5 * m2 * (x2dot * x2dot + y2dot * y2dot) in
    cos_th1' ← math_cos th1;
    let y1 := (- l1) * cos_th1' in
    cos_th2' ← math_cos th2;
    let y2 := y1 - l2 * cos_th2' in
    let PE := m1 * g * y1 + m2 * g * y2 in
    mret (KE + PE)
  else
    '(th, w) ← Py.unpack2 (take 2 state);
    m ← Py.getitem params "m1";
    l ← Py.getitem params "l1";
    cos_th ← math_cos th;
    let xdot := l * w * cos_th in
    sin_th ← math_sin th;
    let ydot := (- l) * w * sin_th in
    let KE := 0.5 * m * (xdot * xdot + ydot * ydot) in
    cos_th' ← math_cos th;
    let y := (- l) * cos_th' in
    let PE := m * g * y in
    mret (KE + PE).

(** [normalize_angles]: angles wrapped into [[-pi, pi]], velocities kept. *)
Definition wrap (angle : float) : float :=
  let two_pi := 2 * math_pi in
  let a := Py.mod_ (angle + math_pi) two_pi in
  let a := if a <? 0 then a + two_pi else a in
  a - math_pi.

Definition normalize_angles (state : State) : State :=
  let s := state in
  let s := if (2 <=? length s)%nat then alter wrap 0%nat s else s in
  let s := if (4 <=? length s)%nat then alter wrap 2%nat s else s in
  s.

(** [positions_from_state]: bob positions relative to the hinge. *)
Definition positions_from_state (state : State) (params : Params)
    : result ((float * float) * (float * float)) :=
  l1 ← Py.getitem params "l1";
  let l2 := Py.get params "l2" 0 in
  if (4 <=? length state)%nat then
    '(th1, _, th2, _) ← Py.unpack4 (take 4 state);
    sin_th1 ← math_sin th1;
    let x1 := l1 * sin_th1 in
    cos_th1 ← math_cos th1;
    let y1 := l1 * cos_th1 in
    sin_th2 ← math_sin th2;
    let x2 := x1 + l2 * sin_th2 in
    cos_th2 ← math_cos th2;
    let y2 := y1 + l2 * cos_th2 in
    mret ((x1, y1), (x2, y2))
  else
    '(th1, _) ← Py.unpack2 (take 2 state);
    sin_th1 ← math_sin th1;
    let x1 := l1 * sin_th1 in
    cos_th1 ← math_cos th1;
    let y1 := l1 * cos_th1 in
    mret ((x1, y1), (x1, y1)).

End Physics.

(** ** sim_session.py *)

(** The dataclass [SimulationSession]: per-session state and parameters. *)
Record SimulationSession : Type := {
  mode : string;
  state : State;
  params : Params;
  integrator : string;
  base_dt : float;
  dt_max : float;
  time_scale : float;
  sim_time : float;
  energy_ref : option float;
  energy_err : float;
  energy_check_interval : float;
  _energy_accum : float;
  autoswitch : bool;
  energy_threshold : float;
  normalize_every_n : Z;
  _norm_counter : Z;
  trail_enabled : bool;
  trail_max_points : Z;
  trail_points : list (float * float)
}.

(** Attribute assignment [self.f = v], one function per assigned field. *)
Definition set_mode_field (v : string) (s : SimulationSession) : SimulationSession :=
  {| mode := v; state := state s; params := params s;
     integrator := integrator s; base_dt := base_dt s; dt_max := dt_max s;
     time_scale := time_scale s; sim_time := sim_time s;
     energy_ref := energy_ref s; energy_err := energy_err s;
     energy_check_interval := energy_check_interval s;
     _energy_accum := _energy_accum s; autoswitch := autoswitch s;
     energy_threshold := energy_threshold s;
     normalize_every_n := normalize_every_n s;
     _norm_counter := _norm_counter s; trail_enabled := trail_enabled s;
     trail_max_points := trail_max_points s; trail_points := trail_points s |}.
Definition set_state (v : State) (s : SimulationSession) : SimulationSession :=
  {| mode := mode s; state := v; params := params s;
     integrator := integrator s; base_dt := base_dt s; dt_max := dt_max s;
     time_scale := time_scale s; sim_time := sim_time s;
     energy_ref := energy_ref s; energy_err := energy_err s;
     energy_check_interval := energy_check_interval s;
     _energy_accum := _energy_accum s; autoswitch := autoswitch s;
     energy_threshold := energy_threshold s;
     normalize_every_n := normalize_every_n s;
     _norm_counter := _norm_counter s; trail_enabled := trail_enabled s;
     trail_max_points := trail_max_points s; trail_points := trail_points s |}.
Definition set_params (v : Params) (s : SimulationSession) : SimulationSession :=
  {| mode := mode s; state := state s; params := v; integrator := integrator s;
     base_dt := base_dt s; dt_max := dt_max s; time_scale := time_scale s;
     sim_time := sim_time s; energy_ref := energy_ref s;
     energy_err := energy_err s;
     energy_check_interval := energy_check_interval s;
     _energy_accum := _energy_accum s; autoswitch := autoswitch s;
     energy_threshold := energy_threshold s;
     normalize_every_n := normalize_every_n s;
     _norm_counter := _norm_counter s; trail_enabled := trail_enabled s;
     trail_max_points := trail_max_points s; trail_points := trail_points s |}.
Definition set_integrator (v : string) (s : SimulationSession) : SimulationSession :=
  {| mode := mode s; state := state s; params := params s; integrator := v;
     base_dt := base_dt s; dt_max := dt_max s; time_scale := time_scale s;
     sim_time := sim_time s; energy_ref := energy_ref s;
     energy_err := energy_err s;
     energy_check_interval := energy_check_interval s;
     _energy_accum := _energy_accum s; autoswitch := autoswitch s;
     energy_threshold := energy_threshold s;
     normalize_every_n := normalize_every_n s;
     _norm_counter := _norm_counter s; trail_enabled := trail_enabled s;
     trail_max_points := trail_max_points s; trail_points := trail_points s |}.
Definition set_base_dt (v : float) (s : SimulationSession) : SimulationSession :=
  {| mode := mode s; state := state s; params := params s;
     integrator := integrator s; base_dt := v; dt_max := dt_max s;
     time_scale := time_scale s; sim_time := sim_time s;
     energy_ref := energy_ref s; energy_err := energy_err s;
     energy_check_interval := energy_check_interval s;
     _energy_accum := _energy_accum s; autoswitch := autoswitch s;
     energy_threshold := energy_threshold s;
     normalize_every_n := normalize_every_n s;
     _norm_counter := _norm_counter s; trail_enabled := trail_enabled s;
     trail_max_points := trail_max_points s; trail_points := trail_points s |}.
Definition set_dt_max (v : float) (s : SimulationSession) : SimulationSession :=
  {| mode := mode s; state := state s; params := params s;
     integrator := integrator s; base_dt := base_dt s; dt_max := v;
     time_scale := time_scale s; sim_time := sim_time s;
     energy_ref := energy_ref s; energy_err := energy_err s;
     energy_check_interval := energy_check_interval s;
     _energy_accum := _energy_accum s; autoswitch := autoswitch s;
     energy_threshold := energy_threshold s;
     normalize_every_n := normalize_every_n s;
     _norm_counter := _norm_counter s; trail_enabled := trail_enabled s;
     trail_max_points := trail_max_points s; trail_points := trail_points s |}.
Definition set_sim_time (v : float) (s : SimulationSession) : SimulationSession :=
  {| mode := mode s; state := state s; params := params s;
     integrator := integrator s; base_dt := base_dt s; dt_max := dt_max s;
     time_scale := time_scale s; sim_time := v; energy_ref := energy_ref s;
     energy_err := energy_err s;
     energy_check_interval := energy_check_interval s;
     _energy_accum := _energy_accum s; autoswitch := autoswitch s;
     energy_threshold := energy_threshold s;
     normalize_every_n := normalize_every_n s;
     _norm_counter := _norm_counter s; trail_enabled := trail_enabled s;
     trail_max_points := trail_max_points s; trail_points := trail_points s |}.
Definition set_energy_ref (v : option float) (s : SimulationSession) : SimulationSession :=
  {| mode := mode s; state := state s; params := params s;
     integrator := integrator s; base_dt := base_dt s; dt_max := dt_max s;
     time_scale := time_scale s; sim_time := sim_time s; energy_ref := v;
     energy_err := energy_err s;
     energy_check_interval := energy_check_interval s;
     _energy_accum := _energy_accum s; autoswitch := autoswitch s;
     energy_threshold := energy_threshold s;
     normalize_every_n := normalize_every_n s;
     _norm_counter := _norm_counter s; trail_enabled := trail_enabled s;
     trail_max_points := trail_max_points s; trail_points := trail_points s |}.
Definition set_energy_err (v : float) (s : SimulationSession) : SimulationSession :=
  {| mode := mode s; state := state s; params := params s;
     integrator := integrator s; base_dt := base_dt s; dt_max := dt_max s;
     time_scale := time_scale s; sim_time := sim_time s;
     energy_ref := energy_ref s; energy_err := v;
     energy_check_interval := energy_check_interval s;
     _energy_accum := _energy_accum s; autoswitch := autoswitch s;
     energy_threshold := energy_threshold s;
     normalize_every_n := normalize_every_n s;
     _norm_counter := _norm_counter s; trail_enabled := trail_enabled s;
     trail_max_points := trail_max_points s; trail_points := trail_points s |}.
Definition set_energy_accum (v : float) (s : SimulationSession) : SimulationSession :=
  {| mode := mode s; state := state s; params := params s;
     integrator := integrator s; base_dt := base_dt s; dt_max := dt_max s;
     time_scale := time_scale s; sim_time := sim_time s;
     energy_ref := energy_ref s; energy_err := energy_err s;
     energy_check_interval := energy_check_interval s; _energy_accum := v;
     autoswitch := autoswitch s; energy_threshold := energy_threshold s;
     normalize_every_n := normalize_every_n s;
     _norm_counter := _norm_counter s; trail_enabled := trail_enabled s;
     trail_max_points := trail_max_points s; trail_points := trail_points s |}.
Definition set_autoswitch (v : bool) (s : SimulationSession) : SimulationSession :=
  {| mode := mode s; state := state s; params := params s;
     integrator := integrator s; base_dt := base_dt s; dt_max := dt_max s;
     time_scale := time_scale s; sim_time := sim_time s;
     energy_ref := energy_ref s; energy_err := energy_err s;
     energy_check_interval := energy_check_interval s;
     _energy_accum := _energy_accum s; autoswitch := v;
     energy_threshold := energy_threshold s;
     normalize_every_n := normalize_every_n s;
     _norm_counter := _norm_counter s; trail_enabled := trail_enabled s;
     trail_max_points := trail_max_points s; trail_points := trail_points s |}.
Definition set_energy_threshold (v : float) (s : SimulationSession) : SimulationSession :=
  {| mode := mode s; state := state s; params := params s;
     integrator := integrator s; base_dt := base_dt s; dt_max := dt_max s;
     time_scale := time_scale s; sim_time := sim_time s;
     energy_ref := energy_ref s; energy_err := energy_err s;
     energy_check_interval := energy_check_interval s;
     _energy_accum := _energy_accum s; autoswitch := autoswitch s;
     energy_threshold := v; normalize_every_n := normalize_every_n s;
     _norm_counter := _norm_counter s; trail_enabled := trail_enabled s;
     trail_max_points := trail_max_points s; trail_points := trail_points s |}.
Definition set_norm_counter (v : Z) (s : SimulationSession) : SimulationSession :=
  {| mode := mode s; state := state s; params := params s;
     integrator := integrator s; base_dt := base_dt s; dt_max := dt_max s;
     time_scale := time_scale s; sim_time := sim_time s;
     energy_ref := energy_ref s; energy_err := energy_err s;
     energy_check_interval := energy_check_interval s;
     _energy_accum := _energy_accum s; autoswitch := autoswitch s;
     energy_threshold := energy_threshold s;
     normalize_every_n := normalize_every_n s; _norm_counter := v;
     trail_enabled := trail_enabled s; trail_max_points := trail_max_points s;
     trail_points := trail_points s |}.
Definition set_trail_points (v : list (float * float)) (s : SimulationSession) : SimulationSession :=
  {| mode := mode s; state := state s; params := params s;
     integrator := integrator s; base_dt := base_dt s; dt_max := dt_max s;
     time_scale := time_scale s; sim_time := sim_time s;
     energy_ref := energy_ref s; energy_err := energy_err s;
     energy_check_interval := energy_check_interval s;
     _energy_accum := _energy_accum s; autoswitch := autoswitch s;
     energy_threshold := energy_threshold s;
     normalize_every_n := normalize_every_n s;
     _norm_counter := _norm_counter s; trail_enabled := trail_enabled s;
     trail_max_points := trail_max_points s; trail_points := v |}.
Definition set_time_scale (v : float) (s : SimulationSession) : SimulationSession :=
  {| mode := mode s; state := state s; params := params s;
     integrator := integrator s; base_dt := base_dt s; dt_max := dt_max s;
     time_scale := v; sim_time := sim_time s; energy_ref := energy_ref s;
     energy_err := energy_err s;
     energy_check_interval := energy_check_interval s;
     _energy_accum := _energy_accum s; autoswitch := autoswitch s;
     energy_threshold := energy_threshold s;
     normalize_every_n := normalize_every_n s;
     _norm_counter := _norm_counter s; trail_enabled := trail_enabled s;
     trail_max_points := trail_max_points s; trail_points := trail_points s |}.
Definition set_energy_check_interval (v : float) (s : SimulationSession) : SimulationSession :=
  {| mode := mode s; state := state s; params := params s;
     integrator := integrator s; base_dt := base_dt s; dt_max := dt_max s;
     time_scale := time_scale s; sim_time := sim_time s;
     energy_ref := energy_ref s; energy_err := energy_err s;
     energy_check_interval := v; _energy_accum := _energy_accum s;
     autoswitch := autoswitch s; energy_threshold := energy_threshold s;
     normalize_every_n := normalize_every_n s;
     _norm_counter := _norm_counter s; trail_enabled := trail_enabled s;
     trail_max_points := trail_max_points s; trail_points := trail_points s |}.
Definition set_normalize_every_n (v : Z) (s : SimulationSession) : SimulationSession :=
  {| mode := mode s; state := state s; params := params s;
     integrator := integrator s; base_dt := base_dt s; dt_max := dt_max s;
     time_scale := time_scale s; sim_time := sim_time s;
     energy_ref := energy_ref s; energy_err := energy_err s;
     energy_check_interval := energy_check_interval s;
     _energy_accum := _energy_accum s; autoswitch := autoswitch s;
     energy_threshold := energy_threshold s; normalize_every_n := v;
     _norm_counter := _norm_counter s; trail_enabled := trail_enabled s;
     trail_max_points := trail_max_points s; trail_points := trail_points s |}.
Definition set_trail_enabled (v : bool) (s : SimulationSession) : SimulationSession :=
  {| mode := mode s; state := state s; params := params s;
     integrator := integrator s; base_dt := base_dt s; dt_max := dt_max s;
     time_scale := time_scale s; sim_time := sim_time s;
     energy_ref := energy_ref s; energy_err := energy_err s;
     energy_check_interval := energy_check_interval s;
     _energy_accum := _energy_accum s; autoswitch := autoswitch s;
     energy_threshold := energy_threshold s;
     normalize_every_n := normalize_every_n s;
     _norm_counter := _norm_counter s; trail_enabled := v;
     trail_max_points := trail_max_points s; trail_points := trail_points s |}.
Definition set_trail_max_points (v : Z) (s : SimulationSession) : SimulationSession :=
  {| mode := mode s; state := state s; params := params s;
     integrator := integrator s; base_dt := base_dt s; dt_max := dt_max s;
     time_scale := time_scale s; sim_time := sim_time s;
     energy_ref := energy_ref s; energy_err := energy_err s;
     energy_check_interval := energy_check_interval s;
     _energy_accum := _energy_accum s; autoswitch := autoswitch s;
     energy_threshold := energy_threshold s;
     normalize_every_n := normalize_every_n s;
     _norm_counter := _norm_counter s; trail_enabled := trail_enabled s;
     trail_max_points := v; trail_points := trail_points s |}.

(** The dataclass defaults. *)
Definition default_params : Params :=
  <["m1" := 1]> (<["m2" := 1]> (<["l1" := 1]> (<["l2" := 1]>
  (<["g" := 9.81]> (<["damping" := 0]> ∅))))).

Definition default_session : SimulationSession :=
  {| mode := "double";
     state := [math_radians 45; 0; math_radians (-30); 0];
     params := default_params;
     integrator := "rk4"; base_dt := 0.004; dt_max := 0.015;
     time_scale := 1; sim_time := 0;
     energy_ref := None; energy_err := 0;
     energy_check_interval := 0.5; _energy_accum := 0;
     autoswitch := true; energy_threshold := 0.1;
     normalize_every_n := 1; _norm_counter := 0;
     trail_enabled := true; trail_max_points := 300; trail_points := [] |}.

(** *** Methods mutate the session and may raise: a state-and-error monad.
    The session a computation ends in is kept also when it raises, as the
    Python object keeps the assignments made before the exception. *)

Definition Sim (A : Type) : Type :=
  SimulationSession → result A * SimulationSession.

Global Instance Sim_ret : MRet Sim := λ A a s, (Ok a, s).
Global Instance Sim_bind : MBind Sim := λ A B f m s,
  match m s with
  | (Ok a, s') => f a s'
  | (Raise e, s') => (Raise e, s')
  end.

(** [self.f] *)
Definition read {A} (f : SimulationSession → A) : Sim A := λ s, (Ok (f s), s).
(** [self.f = v], through a field's assignment function *)
Definition assign (upd : SimulationSession → SimulationSession) : Sim unit :=
  λ s, (Ok (), upd s).
(** a call that does not touch the session *)
Definition call {A} (m : result A) : Sim A := λ s, (m, s).
Definition pass : Sim unit := mret ().

Section Session.
Context `{Libm}.

(** [_append_trail_point]: append, then drop the oldest point when the
    trail is longer than [trail_max_points]. *)
Definition pop0 {A} (l : list A) : result (list A) :=
  match l with [] => Raise IndexError | _ :: l' => Ok l' end.

Definition _append_trail_point (x y : float) : Sim unit :=
  tr ← read trail_points;
  assign (set_trail_points (tr ++ [(x, y)]));;
  tr ← read trail_points;
  N ← read trail_max_points;
  if (N <? Z.of_nat (length tr))%Z then
    tr' ← call (pop0 tr);
    assign (set_trail_points tr')
  else pass.

(** The integration of [step]: the state advanced by [dt] in sub-steps,
    with the active integrator. *)
Definition advance (dt : float) (deriv : Deriv) : Sim unit :=
  integ ← read integrator;
  st ← read state;
  p ← read params;
  dmx ← read dt_max;
  bdt ← read base_dt;
  if String.eqb integ "rk4" then
    c ← call (choose_dt_max st bdt dmx);
    let dtmx := Py.min dmx c in
    st' ← call (rk4_integrate_substeps st dt dtmx p deriv);
    assign (set_state st')
  else
    (* symplectic step(s) *)
    c ← call (choose_dt_max st (Py.max 0.008 (bdt * 2)) dmx);
    let dtmx := Py.min dmx c in
    steps ← call (substep_count dt dtmx);
    let small := dt / Py.float_of_int steps in
    s' ← call (Py.for_range (Z.to_nat steps)
                 (λ s, symplectic_euler_step s small p deriv) st);
    assign (set_state s').

(** occasional normalization *)
Definition normalization : Sim unit :=
  c ← read _norm_counter;
  assign (set_norm_counter (c + 1)%Z);;
  c ← read _norm_counter;
  n ← read normalize_every_n;
  if (n <=? c)%Z then
    st ← read state;
    assign (set_state (normalize_angles st));;
    assign (set_norm_counter 0%Z)
  else pass.

(** The energy check: the drift against the reference, then either the
    switch to RK4 or the adaptation of [dt_max]. The local variable [e] is
    bound only when [total_energy] returned. *)
Definition energy_check (energy_mode : string) : Sim unit :=
  assign (set_energy_accum 0);;
  st ← read state;
  p ← read params;
  ref ← read energy_ref;
  e ← match total_energy st p energy_mode with
      | Ok e =>
          let e0 := default e ref in
          let denom := Py.max 1e-9 (abs e0) in
          assign (set_energy_err (abs (e - e0) / denom));;
          mret (Some e)
      | Raise _ =>
          assign (set_energy_err 0);;
          mret None
      end;
  auto ← read autoswitch;
  integ ← read integrator;
  err ← read energy_err;
  thr ← read energy_threshold;
  if auto && String.eqb integ "symplectic" && (thr <? err) then
    (* switch to rk4 if drift too large *)
    assign (set_integrator "rk4");;
    assign (set_base_dt 0.004);;
    assign (set_dt_max 0.015);;
    match e with
    | Some e => assign (set_energy_ref (Some e))
    | None => call (Raise (UnboundLocalError "e"))
    end
  else
    (* adapt dt_max slightly *)
    dmx ← read dt_max;
    if thr * 0.5 <? err then
      assign (set_dt_max (Py.max 0.001 (dmx * 0.85)))
    else
      let upper := if String.eqb integ "rk4" then 0.015 else 0.03 in
      assign (set_dt_max (Py.min upper (dmx * 1.05))).

(** energy monitoring when no damping *)
Definition energy_monitoring (dt : float) (energy_mode : string) : Sim unit :=
  p ← read params;
  if Py.get p "damping" 0 =? 0 then
    ref ← read energy_ref;
    (match ref with
     | None =>
         st ← read state;
         e ← call (try_except (total_energy st p energy_mode) (Ok 0));
         assign (set_energy_ref (Some e))
     | Some _ => pass
     end : Sim unit);;
    acc ← read _energy_accum;
    assign (set_energy_accum (acc + dt));;
    acc ← read _energy_accum;
    ival ← read energy_check_interval;
    if ival <=? acc then energy_check energy_mode else pass
  else pass.

(** trail update *)
Definition trail_update : Sim unit :=
  enabled ← read trail_enabled;
  if (enabled : bool) then
    st ← read state;
    p ← read params;
    '((x1, y1), (x2, y2)) ← call (positions_from_state st p);
    m ← read mode;
    if String.eqb m "double" then _append_trail_point x2 y2
    else _append_trail_point x1 y1
  else pass.

(** [step]: advance the simulation by [dt] seconds, with sub-stepping and
    monitoring. *)
Definition step (dt : float) : Sim unit :=
  (* pick derivatives *)
  m ← read mode;
  let '(deriv, energy_mode) :=
    if String.eqb m "double"
    then (double_pendulum_derivatives, "double")
    else (single_pendulum_derivatives, "single") in
  advance dt deriv;;
  normalization;;
  t ← read sim_time;
  assign (set_sim_time (t + dt));;
  energy_monitoring dt energy_mode;;
  trail_update.

(** [get_positions]: the dict with keys [x1], [y1], [x2], [y2]. *)
Definition get_positions : Sim (gmap string float) :=
  st ← read state;
  p ← read params;
  '((x1, y1), (x2, y2)) ← call (positions_from_state st p);
  mret (<["x1" := x1]> (<["y1" := y1]> (<["x2" := x2]> (<["y2" := y2]> ∅)))).

(** [reset] *)
Definition reset : Sim unit :=
  m ← read mode;
  assign (set_state
    (if String.eqb m "double"
     then [math_radians 45; 0; math_radians (-30); 0]
     else [math_radians 45; 0]));;
  assign (set_sim_time 0);;
  assign (set_energy_ref None);;
  assign (set_energy_err 0);;
  assign (set_energy_accum 0);;
  assign (set_trail_points []).

(** [set_mode]. The argument is a [str], for which [mode or ""] is the
    argument itself. *)
Definition set_mode (mode_arg : string) : Sim unit :=
  let mode_arg := Py.lower mode_arg in
  let new_mode :=
    if Py.startswith mode_arg "single" || Py.startswith mode_arg "einfach"
    then "single" else "double" in
  m ← read mode;
  if String.eqb new_mode m then pass
  else
    st ← read state;
    (if String.eqb new_mode "single" then
       '(th1, w1) ← call (Py.unpack2 (take 2 st));
       assign (set_state [th1; w1])
     else
       '(th1, w1) ← call (Py.unpack2 (take 2 st));
       assign (set_state [th1; w1; math_radians (-30); 0]));;
    assign (set_mode_field new_mode);;
    reset.

End Session.

(** ** app_streamlit.py *)

(** [_origin_and_limits]: the hinge as plot origin and the plot extent, at
    least 1 m; the second length counts in double mode only. *)
Definition _origin_and_limits (sim : SimulationSession)
    : result ((float * float) * float) :=
  l1 ← Py.getitem (params sim) "l1";
  let l2 := Py.get (params sim) "l2" 0 in
  let total_len := l1 + (if String.eqb (mode sim) "double" then l2 else 0) in
  let max_len := Py.max 1 total_len in
  mret ((0, 0), max_len).

(** ** A libm to run the model with

    Truncated Taylor series around 0: exact at 0 ([sin 0 = 0], [cos 0 = 1]),
    close to the C library for small angles only. The theorems below hold for
    every [Libm]; this instance serves to evaluate the model on concrete
    sessions. *)
Definition taylor_sin (x : float) : float :=
  let x2 := x * x in
  x * (1 - x2 / 6 * (1 - x2 / 20 * (1 - x2 / 42 * (1 - x2 / 72)))).
Definition taylor_cos (x : float) : float :=
  let x2 := x * x in
  1 - x2 / 2 * (1 - x2 / 12 * (1 - x2 / 30 * (1 - x2 / 56))).
Definition taylor_libm : Libm :=
  {| libm_sin := taylor_sin; libm_cos := taylor_cos |}.

(** * The vocabulary of the properties

    Definitions the statements below are written with: what the spec names
    (the largest angular velocity, the bounded FIFO, the drift), the phases
    of [step], and the sessions the examples run on. *)

(** [m] keeps [I]: from a session where [I] holds, [m] ends in a session
    where [I] holds, whether it returns or raises. *)
Definition keeps {A} (I : SimulationSession → Prop) (m : Sim A) : Prop :=
  ∀ s, I s → I (m s).2.

(** The update of one pendulum segment [(th, w)] under acceleration [a]:
    the velocity first, then the angle with the new velocity. *)
Definition semi_implicit (dt th w a : float) : float * float :=
  let w' := w + dt * a in
  (th + dt * w', w').

(** The reversed ordering (explicit Euler): the angle with the old
    velocity. *)
Definition explicit_euler (dt th w a : float) : float * float :=
  (th + dt * w, w + dt * a).

(** The angular velocities a state vector holds: that of the first
    pendulum, and that of the second when the vector has its four
    components. *)
Definition angular_velocities (state : State) : list float :=
  match state with
  | _ :: w1 :: _ :: w2 :: _ => [w1; w2]
  | _ :: w1 :: _ => [w1]
  | _ => []
  end.

(** The largest magnitude of a list of values, 0 for none. *)
Definition max_magnitude (ws : list float) : float :=
  match ws with
  | [] => 0
  | w :: ws' => foldl (λ acc x, Py.max acc (abs x)) (abs w) ws'
  end.

(** The maximum angular-velocity magnitude across the state. *)
Definition w_max (state : State) : float :=
  max_magnitude (angular_velocities state).

(** The value the heuristic is specified to return. *)
Definition dt_for (w base_dt max_dt : float) : float :=
  if w <=? 0.1 then max_dt
  else Py.max 1e-4 (Py.min max_dt (base_dt / (1 + w))).

(** The number of sub-steps with the ceiling [dt_max] itself as divisor:
    [max(1, ceil(|dt_total| / dt_max))]. *)
Definition ceil_substep_count (dt_total dt_max : float) : result Z :=
  n ← Py.ceil (abs dt_total / dt_max);
  mret (Z.max 1 n).

(** [f] applied [n] times in sequence from [s], stopping at the first
    exception. *)
Definition sequentially {A} (n : nat) (f : A → result A) (s : A) : result A :=
  Nat.iter n (λ r, r ≫= f) (Ok s).

(** The ceiling the session hands to the sub-stepping, and its integrator. *)
Definition chosen_dt_max (s : SimulationSession) : float :=
  let base := if String.eqb (integrator s) "rk4" then base_dt s
              else Py.max 0.008 (base_dt s * 2) in
  Py.min (dt_max s) (dt_for (w_max (state s)) base (dt_max s)).

(** The step function of the active integrator. *)
Definition active_step (s : SimulationSession)
    : State → float → Params → Deriv → result State :=
  if String.eqb (integrator s) "rk4" then rk4_step else symplectic_euler_step.

(** The energy-mode tag [step] picks for the mode [m]. *)
Definition energy_mode_of (m : string) : string :=
  if String.eqb m "double" then "double" else "single".

(** A bounded FIFO of capacity [N]: the sample goes to the end, and the
    oldest sample leaves from the front when the capacity is exceeded. *)
Definition fifo_push {A} (N : Z) (tr : list A) (p : A) : list A :=
  let tr' := tr ++ [p] in
  if (N <? Z.of_nat (length tr'))%Z then drop 1 tr' else tr'.

(** The trail invariant: the capacity is [N] and the trail holds at most
    [N] samples. *)
Definition trail_bounded (N : Z) (s : SimulationSession) : Prop :=
  trail_max_points s = N ∧ (Z.of_nat (length (trail_points s)) ≤ N)%Z.

(** [s] has the trail, its settings and the mode of [s0]. *)
Definition same_trail (s0 s : SimulationSession) : Prop :=
  trail_points s = trail_points s0 ∧ trail_max_points s = trail_max_points s0 ∧
  trail_enabled s = trail_enabled s0 ∧ mode s = mode s0.

(** The relative drift of the energy [e] against the reference [e0]. *)
Definition drift (e e0 : float) : float :=
  abs (e - e0) / Py.max 1e-9 (abs e0).

(** The test [float(self.params.get("damping", 0.0)) == 0.0]. *)
Definition undamped (s : SimulationSession) : bool :=
  Py.get (params s) "damping" 0 =? 0.

(** The condition under which the check switches to RK4. *)
Definition switches (s : SimulationSession) (err : float) : bool :=
  autoswitch s && String.eqb (integrator s) "symplectic"
  && (energy_threshold s <? err).

(** [s] has the mode, the parameters and the integrator and energy
    settings of [s0]: the fields the integration, the normalization and the
    clock leave alone. *)
Definition same_controls (s0 s : SimulationSession) : Prop :=
  mode s = mode s0 ∧ params s = params s0 ∧ integrator s = integrator s0 ∧
  base_dt s = base_dt s0 ∧ dt_max s = dt_max s0 ∧
  energy_ref s = energy_ref s0 ∧ energy_err s = energy_err s0 ∧
  energy_check_interval s = energy_check_interval s0 ∧
  _energy_accum s = _energy_accum s0 ∧ autoswitch s = autoswitch s0 ∧
  energy_threshold s = energy_threshold s0.

(** [s] differs from [s0] in the trail, the clock and the normalization
    counter at most. *)
Definition same_but_trail (s0 s : SimulationSession) : Prop :=
  same_controls s0 s ∧ state s = state s0.

Section Phases.
Context `{Libm}.

(** The derivative function [step] picks for the mode [m]. *)
Definition deriv_of (m : string) : Deriv :=
  if String.eqb m "double" then double_pendulum_derivatives
  else single_pendulum_derivatives.

(** [step] up to the energy monitoring, for the mode [m] read at its start:
    integration, normalization, clock. *)
Definition before_energy (dt : float) (m : string) : Sim unit :=
  advance dt (deriv_of m);;
  normalization;;
  t ← read sim_time;
  assign (set_sim_time (t + dt)).

(** [step] up to the trail update. *)
Definition before_trail (dt : float) (m : string) : Sim unit :=
  before_energy dt m;;
  energy_monitoring dt (energy_mode_of m).

(** The position [step] records: the second bob in double mode, the first
    otherwise. *)
Definition tracked_position (s : SimulationSession) : result (float * float) :=
  '((x1, y1), (x2, y2)) ← positions_from_state (state s) (params s);
  mret (if String.eqb (mode s) "double" then (x2, y2) else (x1, y1)).

(** The session after the capture of an absent energy reference. *)
Definition captured (em : string) (s : SimulationSession) : SimulationSession :=
  match energy_ref s with
  | Some _ => s
  | None =>
      set_energy_ref
        (Some match total_energy (state s) (params s) em with
              | Ok e => e
              | Raise _ => 0
              end) s
  end.

(** The session after the capture and the accumulation of [dt]. *)
Definition accumulated (dt : float) (em : string) (s : SimulationSession)
    : SimulationSession :=
  set_energy_accum (_energy_accum s + dt) (captured em s).

(** The session after the [step]s of a list of time increments, one after
    the other. *)
Definition run_steps (dts : list float) (s : SimulationSession)
    : SimulationSession :=
  foldl (λ s dt, (step dt s).2) s dts.

End Phases.

(** ** Example sessions *)

(** Parameters of a single pendulum: unit mass and length, no damping
    entry. *)
Definition pendulum_params : Params :=
  <["m1" := 1]> (<["l1" := 1]> (<["g" := 9.81]> ∅)).

(** The default session with the first angle set to 1 radian. *)
Definition session_angle_one : SimulationSession :=
  set_state [1; 0; math_radians (-30); 0] default_session.

(** The default session switched to single mode. *)
Definition single_session : SimulationSession :=
  (set_mode "single" default_session).2.

(** A session whose trail is full: capacity 2, two samples. *)
Definition full_trail_session : SimulationSession :=
  set_trail_points [(1, 1); (2, 2)] (set_trail_max_points 2 default_session).

(** A single pendulum released at 0.5 rad, integrated with the symplectic
    integrator, whose energy reference (1 J) is far from its energy. *)
Definition drifting_session : SimulationSession :=
  set_energy_ref (Some 1)
    (set_integrator "symplectic"
       (set_params pendulum_params
          (set_state [0.5; 0] (set_mode_field "single" default_session)))).

(** A single-pendulum session whose parameters lack [m1], with the
    symplectic integrator and a negative energy threshold. *)
Definition unbound_session : SimulationSession :=
  set_energy_threshold (-1)
    (set_integrator "symplectic"
       (set_params (<["l1" := 1]> (<["g" := 9.81]> ∅))
          (set_state [0.5; 0] (set_mode_field "single" default_session)))).

(** The default session with an energy reference captured earlier (5 J),
    after [params["damping"] = 0.1]. *)
Definition stale_session : SimulationSession :=
  set_energy_ref (Some 5)
    (set_params (<["damping" := 0.1]> default_params) default_session).

(** ** Vocabulary of the further properties *)

(** The mode [set_mode] selects for its argument. *)
Definition target_mode (mode_arg : string) : string :=
  if Py.startswith (Py.lower mode_arg) "single"
     || Py.startswith (Py.lower mode_arg) "einfach"
  then "single" else "double".

(** The state vector has the length of the mode: 4 in double mode, 2 in
    single mode. *)
Definition well_formed (s : SimulationSession) : Prop :=
  (mode s = "double" ∧ length (state s) = 4%nat) ∨
  (mode s = "single" ∧ length (state s) = 2%nat).

(** [s] has the settings of [s0]: the fields only the caller assigns. *)
Definition same_settings (s0 s : SimulationSession) : Prop :=
  mode s = mode s0 ∧ params s = params s0 ∧ time_scale s = time_scale s0 ∧
  autoswitch s = autoswitch s0 ∧ energy_threshold s = energy_threshold s0 ∧
  energy_check_interval s = energy_check_interval s0 ∧
  normalize_every_n s = normalize_every_n s0 ∧
  trail_enabled s = trail_enabled s0 ∧ trail_max_points s = trail_max_points s0.

(** [s] has the integrator, the step sizes and the energy tracking of
    [s0]. *)
Definition same_monitoring (s0 s : SimulationSession) : Prop :=
  integrator s = integrator s0 ∧ base_dt s = base_dt s0 ∧
  dt_max s = dt_max s0 ∧ energy_ref s = energy_ref s0 ∧
  energy_err s = energy_err s0 ∧ _energy_accum s = _energy_accum s0.

Section FurtherVocabulary.
Context `{Libm}.

(** The drift an energy check records: against the reference when
    [total_energy] returns, 0 when it raises. *)
Definition check_drift (em : string) (s : SimulationSession) : float :=
  match total_energy (state s) (params s) em with
  | Ok e => drift e (default e (energy_ref s))
  | Raise _ => 0
  end.

End FurtherVocabulary.

(** The value an energy check that does not switch gives [dt_max]: shrunk
    with a floor when the drift is above half the threshold, grown up to the
    bound of the integrator otherwise. *)
Definition adapted_dt_max (s : SimulationSession) (err : float) : float :=
  if energy_threshold s * 0.5 <? err then Py.max 0.001 (dt_max s * 0.85)
  else Py.min (if String.eqb (integrator s) "rk4" then 0.015 else 0.03)
              (dt_max s * 1.05).

(** ** Vocabulary of the integrator switch *)

Section SwitchVocabulary.
Context `{Libm}.

(** The step [dt] of [s] runs an energy check that switches the integrator:
    the integration returned, the monitoring is on, the accumulator reaches
    the interval, and the drift the check records exceeds the threshold with
    the autoswitch on and the symplectic integrator. *)
Definition switch_due (dt : float) (s : SimulationSession) : bool :=
  match before_energy dt (mode s) s with
  | (Ok _, s1) =>
      undamped s && (energy_check_interval s <=? _energy_accum s + dt) &&
      switches s (check_drift (energy_mode_of (mode s))
                    (accumulated dt (energy_mode_of (mode s)) s1))
  | (Raise _, _) => false
  end.

(** None of the steps [dts], taken one after the other from [s], runs a
    check that switches the integrator. *)
Fixpoint quiet_steps (dts : list float) (s : SimulationSession) : bool :=
  match dts with
  | [] => true
  | dt :: dts' => negb (switch_due dt s) && quiet_steps dts' (step dt s).2
  end.

End SwitchVocabulary.

(** The single pendulum of [drifting_session] with no energy reference
    yet. *)
Definition calm_session : SimulationSession :=
  set_integrator "symplectic"
    (set_params pendulum_params
       (set_state [0.5; 0] (set_mode_field "single" default_session))).

(** * Properties *)

(** ** Reasoning about session computations *)

Section SimRules.

Lemma keeps_ret {A} I (a : A) : keeps I (mret a).
Proof. intros s Hs; exact Hs. Qed.

Lemma keeps_read {A} I (f : SimulationSession → A) : keeps I (read f).
Proof. intros s Hs; exact Hs. Qed.

Lemma keeps_call {A} I (m : result A) : keeps I (call m).
Proof. intros s Hs; exact Hs. Qed.

Lemma keeps_assign I upd :
  (∀ s, I s → I (upd s)) → keeps I (assign upd).
Proof. intros Hupd s Hs; apply Hupd, Hs. Qed.

Lemma keeps_bind {A B} I (m : Sim A) (f : A → Sim B) :
  keeps I m → (∀ a, keeps I (f a)) → keeps I (m ≫= f).
Proof.
  intros Hm Hf s Hs. unfold mbind, Sim_bind.
  specialize (Hm s Hs). destruct (m s) as [[a|e] s1]; simpl in *.
  - apply Hf, Hm.
  - exact Hm.
Qed.

Lemma bind_inv_Ok {A B} (m : Sim A) (f : A → Sim B) s b s2 :
  (m ≫= f) s = (Ok b, s2) → ∃ a s1, m s = (Ok a, s1) ∧ f a s1 = (Ok b, s2).
Proof.
  unfold mbind, Sim_bind. destruct (m s) as [[a|e] s1]; intros Hf.
  - exists a, s1. split; [reflexivity | exact Hf].
  - discriminate Hf.
Qed.

End SimRules.


(** ** Tactics *)

(** Proves [keeps I m] through the structure of [m]; the assignments that
    could touch [I] are left as goals [∀ s, I s → I (upd s)]. *)
Ltac keeps_phase :=
  lazymatch goal with
  | |- keeps _ (mret _) => apply keeps_ret
  | |- keeps _ pass => apply keeps_ret
  | |- keeps _ (read _) => apply keeps_read
  | |- keeps _ (call _) => apply keeps_call
  | |- keeps _ (assign _) => apply keeps_assign
  | |- keeps _ (_ ≫= _) => apply keeps_bind; [| intros ?]
  | |- keeps _ (match ?x with _ => _ end) => destruct x
  end.

Ltac keeps_phases := repeat keeps_phase.

(** Closes [I (upd s)] from [I s] when [upd] assigns a field [I] does not
    read. *)
Ltac frame :=
  intros; match goal with Hs : _ |- _ => exact Hs end.

(** Reduces the projections of assigned sessions. *)
Tactic Notation "setters" :=
  cbn [mode state params integrator base_dt dt_max energy_ref energy_err
       _energy_accum snd
       set_state set_integrator set_base_dt set_dt_max set_energy_ref
       set_energy_err set_energy_accum set_trail_points].
Tactic Notation "setters" "in" hyp(H) :=
  cbn [mode state params integrator base_dt dt_max energy_ref energy_err
       _energy_accum snd
       set_state set_integrator set_base_dt set_dt_max set_energy_ref
       set_energy_err set_energy_accum set_trail_points] in H.

(** ** [reset] and [set_mode] *)

Section ResetAndMode.

Lemma reset_state (s : SimulationSession) :
  state (reset s).2 =
    if String.eqb (mode s) "double"
    then [math_radians 45; 0; math_radians (-30); 0]
    else [math_radians 45; 0].
Proof. reflexivity. Qed.

Lemma reset_mode (s : SimulationSession) : mode (reset s).2 = mode s.
Proof. reflexivity. Qed.

(** C7: after every [reset()] the state vector has length 2 in single mode
    and 4 in double mode, the trail is empty, the energy reference is
    absent and the recorded energy drift is 0. *)
Theorem reset_postcondition (s : SimulationSession) :
  (reset s).1 = Ok () ∧
  (mode (reset s).2 = "single" → length (state (reset s).2) = 2%nat) ∧
  (mode (reset s).2 = "double" → length (state (reset s).2) = 4%nat) ∧
  length (trail_points (reset s).2) = 0%nat ∧
  energy_ref (reset s).2 = None ∧
  energy_err (reset s).2 = 0.
Proof.
  repeat split.
  - rewrite reset_mode, reset_state. intros ->. reflexivity.
  - rewrite reset_mode, reset_state. intros ->. reflexivity.
Qed.

Lemma reset_postcondition_witness :
  (reset default_session).1 = Ok () ∧
  length (state (reset default_session).2) = 4%nat ∧
  length (state (reset (set_mode_field "single" default_session)).2) = 2%nat.
Proof.
  split; [apply (reset_postcondition default_session) |].
  split.
  - apply (reset_postcondition default_session). reflexivity.
  - apply (reset_postcondition (set_mode_field "single" default_session)).
    reflexivity.
Defined.

(** [set_mode] to the other mode converts the state and then resets: the
    session ends in the canonical state of the new mode. *)
Lemma set_mode_to_single (s : SimulationSession) :
  mode s ≠ "single" → (2 ≤ length (state s))%nat →
  (set_mode "single" s).1 = Ok () ∧
  mode (set_mode "single" s).2 = "single" ∧
  state (set_mode "single" s).2 = [math_radians 45; 0].
Proof.
  intros Hm Hlen. unfold set_mode.
  change (Py.lower "single") with "single".
  change (Py.startswith "single" "single" || Py.startswith "single" "einfach")
    with true.
  cbv iota.
  destruct (state s) as [|th [|w rest]] eqn:Hst; simpl in Hlen; try lia.
  unfold mbind, Sim_bind, read, assign, call, pass, reset.
  destruct (String.eqb_spec "single" (mode s)) as [Heq|Hne]; [congruence|].
  rewrite Hst. cbn -[math_radians]. auto.
Qed.

Lemma set_mode_to_double (s : SimulationSession) :
  mode s ≠ "double" → (2 ≤ length (state s))%nat →
  (set_mode "double" s).1 = Ok () ∧
  mode (set_mode "double" s).2 = "double" ∧
  state (set_mode "double" s).2 =
    [math_radians 45; 0; math_radians (-30); 0].
Proof.
  intros Hm Hlen. unfold set_mode.
  change (Py.lower "double") with "double".
  change (Py.startswith "double" "single" || Py.startswith "double" "einfach")
    with false.
  cbv iota.
  destruct (state s) as [|th [|w rest]] eqn:Hst; simpl in Hlen; try lia.
  unfold mbind, Sim_bind, read, assign, call, pass, reset.
  destruct (String.eqb_spec "double" (mode s)) as [Heq|Hne]; [congruence|].
  rewrite Hst. cbn -[math_radians]. auto.
Qed.

(** C1, as the code has it: from double mode, [set_mode("single")] then
    [set_mode("double")] ends in the canonical double-pendulum state. The
    first angle is [radians(45)] whatever it was before: the [reset()] at
    the end of [set_mode] overwrites the angle the conversion kept. *)
Theorem set_mode_single_double_resets_first_angle (s : SimulationSession) :
  mode s = "double" → (2 ≤ length (state s))%nat →
  let s1 := (set_mode "single" s).2 in
  let s2 := (set_mode "double" s1).2 in
  (set_mode "single" s).1 = Ok () ∧ (set_mode "double" s1).1 = Ok () ∧
  mode s2 = "double" ∧
  state s2 !! 0%nat = Some (math_radians 45).
Proof.
  intros Hm Hlen s1 s2.
  destruct (set_mode_to_single s) as (Hr1 & Hm1 & Hst1); [congruence | exact Hlen |].
  destruct (set_mode_to_double s1) as (Hr2 & Hm2 & Hst2).
  - subst s1. rewrite Hm1. discriminate.
  - subst s1. rewrite Hst1. simpl. lia.
  - subst s2. rewrite Hst2. auto.
Qed.

Lemma set_mode_single_double_resets_first_angle_witness :
  state session_angle_one !! 0%nat = Some 1 ∧
  state (set_mode "double" (set_mode "single" session_angle_one).2).2 !! 0%nat
    = Some 0x1.921fb54442d18p-1 ∧
  (1 =? 0x1.921fb54442d18p-1) = false.
Proof.
  split; [reflexivity |]. split; [| reflexivity].
  refine (proj2 (proj2 (proj2
    (set_mode_single_double_resets_first_angle session_angle_one _ _)))).
  - reflexivity.
  - simpl. lia.
Defined.

End ResetAndMode.

(** ** Positions *)

Section Positions.
Context `{Libm}.

(** With fewer than four components the second position is the first. *)
Lemma positions_from_state_short state params p1 p2 :
  (length state < 4)%nat →
  positions_from_state state params = Ok (p1, p2) → p2 = p1.
Proof.
  intros Hlen. unfold positions_from_state.
  destruct (Py.getitem params "l1") as [l1|e]; [| discriminate].
  cbn [mbind result_bind].
  destruct (4 <=? length state)%nat eqn:Hge;
    [apply Nat.leb_le in Hge; lia |].
  destruct (Py.unpack2 (take 2 state)) as [[th w]|e]; [| discriminate].
  cbn [mbind result_bind].
  destruct (math_sin th) as [sx|e]; [| discriminate].
  cbn [mbind result_bind].
  destruct (math_cos th) as [cx|e]; [| discriminate].
  cbn [mbind result_bind mret result_ret]. intros [= <- <-]. reflexivity.
Qed.

Lemma positions_from_state_single th w params l1 sx cx :
  params !! "l1" = Some l1 → math_sin th = Ok sx → math_cos th = Ok cx →
  positions_from_state [th; w] params
    = Ok ((l1 * sx, l1 * cx), (l1 * sx, l1 * cx)).
Proof.
  intros Hl Hs Hc. unfold positions_from_state, Py.getitem.
  rewrite Hl. cbn [mbind result_bind length Nat.leb take Py.unpack2].
  rewrite Hs. cbn [mbind result_bind]. rewrite Hc. reflexivity.
Qed.

(** C10: in single-pendulum mode (a state of length 2) [get_positions()]
    returns a second bob position identical to the first: the dict's [x2]
    is its [x1] and its [y2] is its [y1]; and it does return when [l1] is
    set and sine and cosine of the angle are defined. *)
Theorem get_positions_single_mode (s : SimulationSession) :
  length (state s) = 2%nat →
  (∀ d, (get_positions s).1 = Ok d →
     ∃ x y, d !! "x1" = Some x ∧ d !! "y1" = Some y ∧
            d !! "x2" = Some x ∧ d !! "y2" = Some y) ∧
  (∀ th w l1 sx cx,
     state s = [th; w] → params s !! "l1" = Some l1 →
     math_sin th = Ok sx → math_cos th = Ok cx →
     ∃ d, get_positions s = (Ok d, s) ∧
          d !! "x1" = Some (l1 * sx) ∧ d !! "y1" = Some (l1 * cx)).
Proof.
  intros Hlen. split.
  - intros d. unfold get_positions, mbind, Sim_bind, read, call.
    destruct (positions_from_state (state s) (params s))
      as [[[x1 y1] [x2 y2]]|e] eqn:Hpos; [| discriminate].
    apply positions_from_state_short in Hpos; [| lia].
    injection Hpos as -> ->.
    cbn [fst mret Sim_ret]. intros [= <-].
    exists x1, y1. repeat split; reflexivity.
  - intros th w l1 sx cx Hst Hl Hs Hc.
    unfold get_positions, mbind, Sim_bind, read, call.
    rewrite Hst, (positions_from_state_single th w _ l1 sx cx Hl Hs Hc).
    eexists. split; [reflexivity |]. split; reflexivity.
Qed.

End Positions.

Lemma get_positions_single_mode_witness :
  length (state single_session) = 2%nat ∧
  ∃ d x y,
    (@get_positions taylor_libm single_session).1 = Ok d ∧
    d !! "x1" = Some x ∧ d !! "y1" = Some y ∧
    d !! "x2" = Some x ∧ d !! "y2" = Some y.
Proof.
  split; [reflexivity |].
  destruct (@get_positions_single_mode taylor_libm single_session eq_refl)
    as [Hsame Hret].
  destruct (Hret 0x1.921fb54442d18p-1 0 1
              (taylor_sin 0x1.921fb54442d18p-1) (taylor_cos 0x1.921fb54442d18p-1)
              eq_refl eq_refl eq_refl eq_refl) as (d & Hd & _).
  assert (Hd1 : (@get_positions taylor_libm single_session).1 = Ok d)
    by (rewrite Hd; reflexivity).
  destruct (Hsame d Hd1) as (x & y & Hxy).
  exists d, x, y. split; [exact Hd1 | exact Hxy].
Defined.

(** ** The symplectic Euler step *)

Section SymplecticEuler.
Variables (params : Params) (dt : float).

Lemma symplectic_euler_step_2 (deriv : Deriv) th w d a :
  deriv [th; w] params = Ok d → d !! 1%nat = Some a →
  symplectic_euler_step [th; w] dt params deriv
    = Ok [(semi_implicit dt th w a).1; (semi_implicit dt th w a).2].
Proof.
  intros Hd Ha. unfold symplectic_euler_step.
  cbn [length Nat.eqb take Py.unpack2 mbind result_bind].
  rewrite Hd. cbn [mbind result_bind]. unfold Py.item. rewrite Ha.
  reflexivity.
Qed.

Lemma symplectic_euler_step_4 (deriv : Deriv) th1 w1 th2 w2 d a1 a2 :
  deriv [th1; w1; th2; w2] params = Ok d →
  d !! 1%nat = Some a1 → d !! 3%nat = Some a2 →
  symplectic_euler_step [th1; w1; th2; w2] dt params deriv
    = Ok [(semi_implicit dt th1 w1 a1).1; (semi_implicit dt th1 w1 a1).2;
          (semi_implicit dt th2 w2 a2).1; (semi_implicit dt th2 w2 a2).2].
Proof.
  intros Hd Ha1 Ha2. unfold symplectic_euler_step.
  cbn [length Nat.eqb take Py.unpack4 mbind result_bind].
  rewrite Hd. cbn [mbind result_bind]. unfold Py.item. rewrite Ha1.
  cbn [mbind result_bind]. rewrite Ha2. reflexivity.
Qed.

(** The step sees the derivative function only at its input state. *)
Lemma symplectic_euler_step_one_evaluation (deriv deriv' : Deriv) state :
  deriv state params = deriv' state params →
  symplectic_euler_step state dt params deriv
    = symplectic_euler_step state dt params deriv'.
Proof.
  intros Heq. unfold symplectic_euler_step.
  destruct state as [|x0 [|x1 [|x2 [|x3 [|x4 rest]]]]]; cbn -[Py.comprehension];
    rewrite ?Heq; reflexivity.
Qed.

(** C6: for a state of length 2 or 4, [symplectic_euler_step] evaluates the
    derivative once, on the input state; it updates each angular velocity as
    [w' = w + dt * a] with the acceleration of that evaluation and then each
    angle as [th' = th + dt * w'] with the updated velocity: per segment
    the result is [[th + dt * (w + dt * a), w + dt * a]]. *)
Theorem symplectic_euler_step_semi_implicit (deriv : Deriv) :
  (∀ th w d a,
     deriv [th; w] params = Ok d → d !! 1%nat = Some a →
     symplectic_euler_step [th; w] dt params deriv
       = Ok [th + dt * (w + dt * a); w + dt * a]) ∧
  (∀ th1 w1 th2 w2 d a1 a2,
     deriv [th1; w1; th2; w2] params = Ok d →
     d !! 1%nat = Some a1 → d !! 3%nat = Some a2 →
     symplectic_euler_step [th1; w1; th2; w2] dt params deriv
       = Ok [th1 + dt * (w1 + dt * a1); w1 + dt * a1;
             th2 + dt * (w2 + dt * a2); w2 + dt * a2]) ∧
  (∀ deriv' state,
     deriv state params = deriv' state params →
     symplectic_euler_step state dt params deriv
       = symplectic_euler_step state dt params deriv').
Proof.
  split; [| split].
  - intros th w d a Hd Ha. apply (symplectic_euler_step_2 deriv th w d a Hd Ha).
  - intros th1 w1 th2 w2 d a1 a2 Hd H1 H3.
    apply (symplectic_euler_step_4 deriv th1 w1 th2 w2 d a1 a2 Hd H1 H3).
  - intros deriv' state. apply symplectic_euler_step_one_evaluation.
Qed.

End SymplecticEuler.

Lemma symplectic_euler_step_semi_implicit_witness :
  let a := -4.7031645338270405 in
  @single_pendulum_derivatives taylor_libm [0.5; 0] pendulum_params
    = Ok [0; a] ∧
  symplectic_euler_step [0.5; 0] 0.25 pendulum_params
      (@single_pendulum_derivatives taylor_libm)
    = Ok [0.5 + 0.25 * (0 + 0.25 * a); 0 + 0.25 * a] ∧
  (semi_implicit 0.25 0.5 0 a).1 ≠ (explicit_euler 0.25 0.5 0 a).1.
Proof.
  intros a. split; [vm_compute; reflexivity |]. split.
  - apply (proj1 (symplectic_euler_step_semi_implicit pendulum_params 0.25
                    (@single_pendulum_derivatives taylor_libm))
             0.5 0 [0; a] a); vm_compute; reflexivity.
  - vm_compute. discriminate.
Defined.

(** ** The step-size heuristic *)

Section ChooseDtMax.

(** The length tests of [choose_dt_max] pick the velocities of the state,
    and its indexing never raises. *)
Lemma choose_dt_max_returns state base_dt max_dt :
  choose_dt_max state base_dt max_dt = Ok (dt_for (w_max state) base_dt max_dt).
Proof.
  unfold choose_dt_max, dt_for, w_max.
  destruct state as [|x0 [|x1 [|x2 [|x3 rest]]]]; cbn;
    try match goal with |- context [if ?c then _ else _] => destruct c end;
    reflexivity.
Qed.

(** C4: for a state vector with at least two components, [choose_dt_max]
    returns exactly [max_dt] when the maximum angular-velocity magnitude
    [w_max] is at most 0.1, and [max(1e-4, min(max_dt, base_dt / (1 +
    w_max)))] otherwise; for the defaults [base_dt = 0.005], [max_dt =
    0.02] and [w_max = 10] the result is below [max_dt] and not below the
    floor [1e-4]. *)
Theorem choose_dt_max_spec (state : State) (base_dt max_dt : float) :
  (2 ≤ length state)%nat →
  angular_velocities state ≠ [] ∧
  ((w_max state <=? 0.1) = true →
     choose_dt_max state base_dt max_dt = Ok max_dt) ∧
  ((w_max state <=? 0.1) = false →
     choose_dt_max state base_dt max_dt
       = Ok (Py.max 1e-4 (Py.min max_dt (base_dt / (1 + w_max state))))) ∧
  (w_max state = 10 →
     ∃ r, choose_dt_max state 0.005 0.02 = Ok r ∧
          (r <? 0.02) = true ∧ (1e-4 <=? r) = true).
Proof.
  intros Hlen. split; [| split; [| split]].
  - destruct state as [|x0 [|x1 [|x2 [|x3 rest]]]]; simpl in *;
      try lia; discriminate.
  - intros Hw. rewrite choose_dt_max_returns. unfold dt_for.
    rewrite Hw. reflexivity.
  - intros Hw. rewrite choose_dt_max_returns. unfold dt_for.
    rewrite Hw. reflexivity.
  - intros Hw. rewrite choose_dt_max_returns, Hw.
    eexists. split; [reflexivity |]. split; vm_compute; reflexivity.
Qed.

Lemma choose_dt_max_spec_witness :
  choose_dt_max [0.3; 0.05] 0.005 0.02 = Ok 0.02 ∧
  choose_dt_max [0.3; -10; 0.1; 2] 0.005 0.02 = Ok 0.00045454545454545455 ∧
  ∃ r, choose_dt_max [0.3; -10; 0.1; 2] 0.005 0.02 = Ok r ∧
       (r <? 0.02) = true ∧ (1e-4 <=? r) = true.
Proof.
  split; [| split].
  - apply (choose_dt_max_spec [0.3; 0.05] 0.005 0.02); [simpl; lia |].
    vm_compute; reflexivity.
  - apply (choose_dt_max_spec [0.3; -10; 0.1; 2] 0.005 0.02); [simpl; lia |].
    vm_compute; reflexivity.
  - apply (choose_dt_max_spec [0.3; -10; 0.1; 2] 0.005 0.02); [simpl; lia |].
    vm_compute; reflexivity.
Defined.

End ChooseDtMax.

(** ** Sub-stepping *)

Section SubStepping.

Lemma for_range_last {A} (n : nat) (f : A → result A) (s : A) :
  Py.for_range (S n) f s = Py.for_range n f s ≫= f.
Proof.
  revert s. induction n as [|n IH]; intros s.
  - cbn. destruct (f s); reflexivity.
  - change (Py.for_range (S (S n)) f s)
      with (f s ≫= Py.for_range (S n) f).
    change (Py.for_range (S n) f s) with (f s ≫= Py.for_range n f).
    destruct (f s) as [s'|e]; cbn [mbind result_bind]; [apply IH | reflexivity].
Qed.

Lemma for_range_sequentially {A} (n : nat) (f : A → result A) (s : A) :
  Py.for_range n f s = sequentially n f s.
Proof.
  unfold sequentially. induction n as [|n IH].
  - reflexivity.
  - rewrite for_range_last, IH. reflexivity.
Qed.

(** At or above [1e-9] the guard [max(1e-9, dt_max)] is [dt_max]. *)
Lemma max_floor_id (x : float) : (1e-9 <=? x) = true → Py.max 1e-9 x = x.
Proof.
  unfold Py.max. rewrite leb_spec, ltb_spec. unfold SFleb, SFltb.
  destruct (SFcompare (Prim2SF 1e-9) (Prim2SF x)) as [[| |]|] eqn:Hcmp;
    try discriminate; try reflexivity.
  intros _. symmetry. apply Prim2SF_inj.
  change (Prim2SF 1e-9)
    with (S754_finite false 4835703278458517 (-82)) in Hcmp |- *.
  destruct (Prim2SF x) as [s|s| |s m e]; unfold SFcompare in Hcmp;
    try discriminate.
  - destruct s; discriminate.
  - destruct s; [discriminate |].
    destruct (Z.compare_spec (-82) e) as [He|He|He]; try discriminate.
    injection Hcmp as Hm. apply (Pos.compare_eq 4835703278458517 m) in Hm.
    subst. reflexivity.
Qed.

Lemma rk4_integrate_substeps_sequentially state dt_total dt_max params deriv steps :
  substep_count dt_total dt_max = Ok steps →
  rk4_integrate_substeps state dt_total dt_max params deriv
    = sequentially (Z.to_nat steps)
        (λ s, rk4_step s (dt_total / Py.float_of_int steps) params deriv) state.
Proof.
  intros Hsteps. unfold rk4_integrate_substeps. rewrite Hsteps.
  cbn [mbind result_bind]. apply for_range_sequentially.
Qed.

Lemma advance_sequentially (s : SimulationSession) dt deriv steps :
  substep_count dt (chosen_dt_max s) = Ok steps →
  advance dt deriv s =
    match sequentially (Z.to_nat steps)
            (λ st, active_step s st (dt / Py.float_of_int steps) (params s) deriv)
            (state s) with
    | Ok st' => (Ok (), set_state st' s)
    | Raise e => (Raise e, s)
    end.
Proof.
  unfold chosen_dt_max, active_step, advance. intros Hsteps.
  unfold mbind at 1 2 3 4 5. unfold Sim_bind, read.
  destruct (String.eqb (integrator s) "rk4").
  - unfold mbind at 1, Sim_bind, call. rewrite choose_dt_max_returns.
    unfold mbind at 1, Sim_bind.
    rewrite (rk4_integrate_substeps_sequentially _ _ _ _ _ _ Hsteps).
    destruct (sequentially _ _ _); reflexivity.
  - unfold mbind at 1, Sim_bind, call. rewrite choose_dt_max_returns.
    unfold mbind at 1, Sim_bind. rewrite Hsteps.
    unfold mbind at 1, Sim_bind. rewrite for_range_sequentially.
    destruct (sequentially _ _ _); reflexivity.
Qed.

(** C5, as the code has it: the divisor of the sub-step count is
    [max(1e-9, dt_max)], which is [dt_max] from [1e-9] on. When the ceiling
    of [|dt_total| / max(1e-9, dt_max)] exists, [steps] is that ceiling or 1
    if it is smaller, [dt_total] is split into [steps] sub-steps of the one
    size [dt_total / steps], and the integrator (RK4 in
    [rk4_integrate_substeps], the active one in the session's [step]) is
    applied [steps] times in sequence from the current state. *)
Theorem substepping_equal_substeps
    (st : State) (dt_total dt_max : float) (prm : Params)
    (deriv : Deriv) (n : Z) :
  Py.ceil (abs dt_total / Py.max 1e-9 dt_max) = Ok n →
  let steps := Z.max 1 n in
  let dt := dt_total / Py.float_of_int steps in
  (1 ≤ steps)%Z ∧
  substep_count dt_total dt_max = Ok steps ∧
  rk4_integrate_substeps st dt_total dt_max prm deriv
    = sequentially (Z.to_nat steps) (λ s, rk4_step s dt prm deriv) st ∧
  (∀ s : SimulationSession,
     chosen_dt_max s = dt_max →
     advance dt_total deriv s =
       match sequentially (Z.to_nat steps)
               (λ st', active_step s st' dt (params s) deriv)
               (state s) with
       | Ok st' => (Ok (), set_state st' s)
       | Raise e => (Raise e, s)
       end) ∧
  ((1e-9 <=? dt_max) = true →
     substep_count dt_total dt_max = ceil_substep_count dt_total dt_max).
Proof.
  intros Hceil steps dt.
  assert (Hsteps : substep_count dt_total dt_max = Ok steps).
  { unfold substep_count. rewrite Hceil. reflexivity. }
  split; [subst steps; lia |]. split; [exact Hsteps |]. split; [| split].
  - apply rk4_integrate_substeps_sequentially, Hsteps.
  - intros s Hs. apply advance_sequentially. rewrite Hs. exact Hsteps.
  - intros Hge. unfold substep_count, ceil_substep_count.
    rewrite (max_floor_id dt_max Hge). reflexivity.
Qed.

End SubStepping.

Lemma substepping_equal_substeps_witness :
  substep_count 0.5 0.015 = Ok 34%Z ∧
  substep_count 0.5 0.015 = ceil_substep_count 0.5 0.015 ∧
  rk4_integrate_substeps [0.5; 0] 0.5 0.015 pendulum_params
      (@single_pendulum_derivatives taylor_libm)
    = sequentially 34
        (λ s, rk4_step s (0.5 / 34) pendulum_params
                (@single_pendulum_derivatives taylor_libm)) [0.5; 0].
Proof.
  destruct (substepping_equal_substeps [0.5; 0] 0.5 0.015 pendulum_params
              (@single_pendulum_derivatives taylor_libm) 34)
    as (_ & Hcount & Hrk4 & _ & Hceil).
  - vm_compute. reflexivity.
  - split; [exact Hcount |]. split; [apply Hceil; vm_compute; reflexivity |].
    exact Hrk4.
Defined.

(** C5 as stated fails below the guard: for the positive ceiling
    [dt_max = 2^-40] and [dt_total = 2^-30] the ceiling of
    [|dt_total| / dt_max] is 1024, and the code takes one sub-step. *)
Lemma substep_count_guard_counterexample :
  (0 <? 0x1p-40) = true ∧
  ceil_substep_count 0x1p-30 0x1p-40 = Ok 1024%Z ∧
  substep_count 0x1p-30 0x1p-40 = Ok 1%Z.
Proof. vm_compute. repeat split; reflexivity. Qed.

(** ** The phases of [step] *)

Section StepPhases.
Context `{Libm}.

Lemma advance_keeps I dt deriv :
  (∀ v s, I s → I (set_state v s)) → keeps I (advance dt deriv).
Proof. intros Hst. unfold advance. keeps_phases; apply Hst. Qed.

Lemma normalization_keeps I :
  (∀ v s, I s → I (set_state v s)) →
  (∀ v s, I s → I (set_norm_counter v s)) →
  keeps I normalization.
Proof.
  intros Hst Hc. unfold normalization. keeps_phases; first [apply Hst | apply Hc].
Qed.

Lemma before_energy_keeps I dt m :
  (∀ v s, I s → I (set_state v s)) →
  (∀ v s, I s → I (set_norm_counter v s)) →
  (∀ v s, I s → I (set_sim_time v s)) →
  keeps I (before_energy dt m).
Proof.
  intros Hst Hc Ht. unfold before_energy. keeps_phases.
  - apply advance_keeps, Hst.
  - apply normalization_keeps; [apply Hst | apply Hc].
  - apply Ht.
Qed.

Lemma energy_check_keeps I em :
  (∀ v s, I s → I (set_energy_accum v s)) →
  (∀ v s, I s → I (set_energy_err v s)) →
  (∀ v s, I s → I (set_energy_ref v s)) →
  (∀ s, I s → I (set_integrator "rk4" s)) →
  (∀ v s, I s → I (set_base_dt v s)) →
  (∀ v s, I s → I (set_dt_max v s)) →
  keeps I (energy_check em).
Proof.
  intros Hacc Herr Href Hint Hb Hd. unfold energy_check.
  keeps_phases;
    first [apply Hacc | apply Herr | apply Href | apply Hint | apply Hb | apply Hd].
Qed.

Lemma energy_monitoring_keeps I dt em :
  (∀ v s, I s → I (set_energy_accum v s)) →
  (∀ v s, I s → I (set_energy_err v s)) →
  (∀ v s, I s → I (set_energy_ref v s)) →
  (∀ s, I s → I (set_integrator "rk4" s)) →
  (∀ v s, I s → I (set_base_dt v s)) →
  (∀ v s, I s → I (set_dt_max v s)) →
  keeps I (energy_monitoring dt em).
Proof.
  intros Hacc Herr Href Hint Hb Hd. unfold energy_monitoring.
  keeps_phases; try first [apply Hacc | apply Href].
  apply energy_check_keeps; assumption.
Qed.

Lemma append_trail_point_keeps I x y :
  (∀ v s, I s → I (set_trail_points v s)) → keeps I (_append_trail_point x y).
Proof. intros Htr. unfold _append_trail_point. keeps_phases; apply Htr. Qed.

Lemma trail_update_keeps I :
  (∀ v s, I s → I (set_trail_points v s)) → keeps I trail_update.
Proof.
  intros Htr. unfold trail_update. keeps_phases;
    apply append_trail_point_keeps, Htr.
Qed.

(** [step] is its phases in sequence. *)
Lemma step_phases dt s :
  step dt s = (before_trail dt (mode s);; trail_update) s.
Proof.
  unfold step, before_trail, before_energy, deriv_of, energy_mode_of.
  unfold mbind at 1. unfold Sim_bind at 1. unfold read at 1.
  cbv beta iota.
  destruct (String.eqb (mode s) "double");
    unfold mbind, Sim_bind, read, assign;
    destruct (advance dt _ s) as [[[]|e1] s1]; try reflexivity;
    destruct (normalization s1) as [[[]|e2] s2]; reflexivity.
Qed.

End StepPhases.

(** ** The trail buffer *)

Section Trail.
Context `{Libm}.

Lemma fifo_push_bounded {A} N (tr : list A) p :
  (Z.of_nat (length tr) ≤ N)%Z → (Z.of_nat (length (fifo_push N tr p)) ≤ N)%Z.
Proof.
  intros Hlen. unfold fifo_push.
  destruct (Z.ltb_spec N (Z.of_nat (length (tr ++ [p])))) as [Hlt|Hge].
  - rewrite length_drop, length_app. simpl. lia.
  - exact Hge.
Qed.

Lemma fifo_push_order {A} N (tr : list A) p :
  ((Z.of_nat (length tr) < N)%Z ∧ fifo_push N tr p = tr ++ [p]) ∨
  ((N ≤ Z.of_nat (length tr))%Z ∧ fifo_push N tr p = drop 1 (tr ++ [p])).
Proof.
  unfold fifo_push.
  destruct (Z.ltb_spec N (Z.of_nat (length (tr ++ [p])))) as [Hlt|Hge];
    rewrite length_app in *; simpl in *; [right | left]; split;
    first [reflexivity | lia].
Qed.

(** Evicting from a trail that holds a sample keeps the others in order. *)
Lemma fifo_push_evicts_oldest {A} N (old : A) (tr : list A) p :
  (N ≤ Z.of_nat (length (old :: tr)))%Z →
  fifo_push N (old :: tr) p = tr ++ [p].
Proof.
  intros Hfull. destruct (fifo_push_order N (old :: tr) p) as [[Hlt _]|[_ ->]].
  - lia.
  - reflexivity.
Qed.

(** [_append_trail_point] never raises and is the FIFO push. *)
Lemma append_trail_point_fifo x y s :
  _append_trail_point x y s =
    (Ok (), set_trail_points
              (fifo_push (trail_max_points s) (trail_points s) (x, y)) s).
Proof.
  unfold _append_trail_point, fifo_push, mbind, Sim_bind, read, assign, call, pass.
  cbn [trail_points trail_max_points set_trail_points].
  destruct (trail_max_points s <? Z.of_nat (length (trail_points s ++ [(x, y)])))%Z.
  - destruct (trail_points s); reflexivity.
  - reflexivity.
Qed.

Lemma append_trail_point_bounded N x y :
  keeps (trail_bounded N) (_append_trail_point x y).
Proof.
  intros s [HN Hlen]. rewrite append_trail_point_fifo. split.
  - exact HN.
  - cbn. rewrite HN. apply fifo_push_bounded, Hlen.
Qed.

Lemma trail_update_enabled s :
  trail_enabled s = true →
  trail_update s =
    match tracked_position s with
    | Ok p => (Ok (), set_trail_points
                        (fifo_push (trail_max_points s) (trail_points s) p) s)
    | Raise e => (Raise e, s)
    end.
Proof.
  intros Hen. unfold trail_update, tracked_position, mbind at 1, Sim_bind, read.
  rewrite Hen. unfold mbind, Sim_bind, result_bind, read, call.
  destruct (positions_from_state (state s) (params s))
    as [[[x1 y1] [x2 y2]]|e]; [| reflexivity].
  destruct (String.eqb (mode s) "double"); apply append_trail_point_fifo.
Qed.

Lemma before_trail_keeps I dt m :
  (∀ v s, I s → I (set_state v s)) →
  (∀ v s, I s → I (set_norm_counter v s)) →
  (∀ v s, I s → I (set_sim_time v s)) →
  (∀ v s, I s → I (set_energy_accum v s)) →
  (∀ v s, I s → I (set_energy_err v s)) →
  (∀ v s, I s → I (set_energy_ref v s)) →
  (∀ s, I s → I (set_integrator "rk4" s)) →
  (∀ v s, I s → I (set_base_dt v s)) →
  (∀ v s, I s → I (set_dt_max v s)) →
  keeps I (before_trail dt m).
Proof.
  intros. unfold before_trail. apply keeps_bind; [| intros ?].
  - apply before_energy_keeps; assumption.
  - apply energy_monitoring_keeps; assumption.
Qed.

Lemma before_trail_same_trail dt m s0 : keeps (same_trail s0) (before_trail dt m).
Proof. apply before_trail_keeps; frame. Qed.

Lemma step_trail_bounded N dt : keeps (trail_bounded N) (step dt).
Proof.
  intros s Hs. rewrite step_phases.
  refine (keeps_bind _ (before_trail dt (mode s)) (λ _, trail_update) _ _ s Hs).
  - apply before_trail_keeps; frame.
  - intros _. unfold trail_update. keeps_phases; apply append_trail_point_bounded.
Qed.

Lemma reset_trail_bounded N : keeps (trail_bounded N) reset.
Proof.
  intros s [HN Hlen]. split; [exact HN |]. change (0 ≤ N)%Z. lia.
Qed.

Lemma set_mode_trail_bounded N m : keeps (trail_bounded N) (set_mode m).
Proof.
  unfold set_mode. keeps_phases; try frame; apply reset_trail_bounded.
Qed.

(** A [step] that returns went through the phases before the trail update
    and then through the trail update. *)
Lemma step_returns_inv dt s s' :
  step dt s = (Ok (), s') →
  ∃ s1, before_trail dt (mode s) s = (Ok (), s1) ∧ same_trail s s1 ∧
        trail_update s1 = (Ok (), s').
Proof.
  rewrite step_phases. intros Hstep.
  apply bind_inv_Ok in Hstep as ([] & s1 & Hbefore & Htrail).
  exists s1. split; [exact Hbefore |]. split; [| exact Htrail].
  pose proof (before_trail_same_trail dt (mode s) s s) as Hkeep.
  rewrite Hbefore in Hkeep. apply Hkeep. repeat split.
Qed.

Lemma step_appends_one_sample dt s s' :
  trail_enabled s = true → step dt s = (Ok (), s') →
  ∃ p, tracked_position s' = Ok p ∧
       trail_points s' = fifo_push (trail_max_points s) (trail_points s) p.
Proof.
  intros Hen Hstep.
  apply step_returns_inv in Hstep as (s1 & _ & (Htr & HN & Hen1 & _) & Hupd).
  rewrite trail_update_enabled in Hupd by congruence.
  destruct (tracked_position s1) as [p|e] eqn:Hp; [| discriminate].
  injection Hupd as <-. exists p. split; [exact Hp |].
  cbn. rewrite HN, Htr. reflexivity.
Qed.

(** C9: the trail is a bounded FIFO. With [trail_max_points] fixed at [N],
    [step], [reset], [set_mode] and [_append_trail_point] keep the trail at
    no more than [N] samples; a [step] call with the trail enabled appends
    one position sample at the end and, when that exceeds the capacity,
    evicts the oldest sample from the front, the others keeping their
    order. *)
Theorem trail_bounded_fifo (N : Z) :
  (∀ dt, keeps (trail_bounded N) (step dt)) ∧
  keeps (trail_bounded N) reset ∧
  (∀ m, keeps (trail_bounded N) (set_mode m)) ∧
  (∀ x y, keeps (trail_bounded N) (_append_trail_point x y)) ∧
  (∀ dt s s',
     trail_max_points s = N → trail_enabled s = true →
     step dt s = (Ok (), s') →
     trail_max_points s' = N ∧
     ∃ p, tracked_position s' = Ok p ∧
          trail_points s' = fifo_push N (trail_points s) p) ∧
  (∀ (tr : list (float * float)) p,
     ((Z.of_nat (length tr) < N)%Z → fifo_push N tr p = tr ++ [p]) ∧
     ((N ≤ Z.of_nat (length tr))%Z → fifo_push N tr p = drop 1 (tr ++ [p])) ∧
     (∀ old tr', tr = old :: tr' → (N ≤ Z.of_nat (length tr))%Z →
        fifo_push N tr p = tr' ++ [p])).
Proof.
  split; [intros dt; apply step_trail_bounded |].
  split; [apply reset_trail_bounded |].
  split; [intros m; apply set_mode_trail_bounded |].
  split; [intros x y; apply append_trail_point_bounded |].
  split.
  - intros dt s s' HN Hen Hstep. split.
    + apply step_returns_inv in Hstep as (s1 & _ & (_ & HN1 & Hen1 & _) & Hupd).
      rewrite trail_update_enabled in Hupd by congruence.
      destruct (tracked_position s1); [| discriminate].
      injection Hupd as <-. cbn. congruence.
    + rewrite <- HN. apply (step_appends_one_sample dt s s' Hen Hstep).
  - intros tr p. split; [| split].
    + intros Hlt. destruct (fifo_push_order N tr p) as [[_ ->]|[Hge _]];
        [reflexivity | lia].
    + intros Hge. destruct (fifo_push_order N tr p) as [[Hlt _]|[_ ->]];
        [lia | reflexivity].
    + intros old tr' -> Hfull. apply fifo_push_evicts_oldest, Hfull.
Qed.

End Trail.

Lemma trail_bounded_fifo_witness :
  trail_bounded 2 full_trail_session ∧
  ∃ p, trail_points (@step taylor_libm 0.01 full_trail_session).2 = [(2, 2); p] ∧
       trail_bounded 2 (@step taylor_libm 0.01 full_trail_session).2.
Proof.
  assert (Hinv : trail_bounded 2 full_trail_session)
    by (split; [reflexivity | simpl; lia]).
  split; [exact Hinv |].
  destruct (@trail_bounded_fifo taylor_libm 2)
    as (Hstep & _ & _ & _ & Hpush & Hfifo).
  assert (Hret : @step taylor_libm 0.01 full_trail_session
                 = (Ok (), (@step taylor_libm 0.01 full_trail_session).2))
    by (vm_compute; reflexivity).
  destruct (Hpush 0.01 full_trail_session _ eq_refl eq_refl Hret)
    as (_ & p & _ & Htrail).
  exists p. split.
  - rewrite Htrail.
    apply (proj2 (proj2 (Hfifo [(1, 1); (2, 2)] p)) (1, 1) [(2, 2)] eq_refl).
    simpl. lia.
  - apply (Hstep 0.01 full_trail_session Hinv).
Defined.

(** ** Energy monitoring and the integrator switch *)

Section Energy.
Context `{Libm}.

Lemma before_energy_same_controls dt m s0 :
  keeps (same_controls s0) (before_energy dt m).
Proof. apply before_energy_keeps; frame. Qed.

Lemma same_controls_refl s : same_controls s s.
Proof. repeat split. Qed.

Lemma before_energy_controls dt m s r s1 :
  before_energy dt m s = (r, s1) → same_controls s s1.
Proof.
  intros Hb. pose proof (before_energy_same_controls dt m s s
                           (same_controls_refl s)) as Hk.
  rewrite Hb in Hk. exact Hk.
Qed.

(** With damping the monitoring is skipped. *)
Lemma energy_monitoring_damped dt em s :
  undamped s = false → energy_monitoring dt em s = (Ok (), s).
Proof.
  unfold undamped, energy_monitoring. intros Hd.
  unfold mbind at 1, Sim_bind, read. rewrite Hd. reflexivity.
Qed.

(** Without damping: capture, accumulate, and check when the interval is
    reached. *)
Lemma energy_monitoring_undamped dt em s :
  undamped s = true →
  energy_monitoring dt em s =
    if energy_check_interval s <=? _energy_accum s + dt
    then energy_check em (accumulated dt em s)
    else (Ok (), accumulated dt em s).
Proof.
  unfold undamped, energy_monitoring, accumulated, captured. intros Hd.
  unfold mbind at 1, Sim_bind, read. rewrite Hd.
  unfold mbind, Sim_bind, read, assign, call, pass, try_except.
  destruct (energy_ref s) as [r|].
  - cbn. destruct (energy_check_interval s <=? _energy_accum s + dt); reflexivity.
  - destruct (total_energy (state s) (params s) em) as [e|ex]; cbn;
      destruct (energy_check_interval s <=? _energy_accum s + dt); reflexivity.
Qed.

(** The check when [total_energy] returns [e]. *)
Lemma energy_check_measured em s e :
  total_energy (state s) (params s) em = Ok e →
  let err := drift e (default e (energy_ref s)) in
  let s1 := set_energy_err err (set_energy_accum 0 s) in
  energy_check em s =
    if switches s err then
      (Ok (), set_energy_ref (Some e)
                (set_dt_max 0.015 (set_base_dt 0.004 (set_integrator "rk4" s1))))
    else if energy_threshold s * 0.5 <? err then
      (Ok (), set_dt_max (Py.max 0.001 (dt_max s * 0.85)) s1)
    else
      (Ok (), set_dt_max
                (Py.min (if String.eqb (integrator s) "rk4" then 0.015 else 0.03)
                        (dt_max s * 1.05)) s1).
Proof.
  intros He err s1. subst err s1. unfold energy_check, switches, drift.
  unfold mbind, Sim_bind, read, assign, call.
  cbn [state params energy_ref set_energy_accum]. rewrite He.
  cbn -[String.eqb Py.max Py.min].
  repeat match goal with
         | |- context [if ?c then _ else _] => destruct c
         end; reflexivity.
Qed.

(** The check when [total_energy] raises: the drift is recorded as 0, and the
    local [e] stays unbound. *)
Lemma energy_check_failed em s ex :
  total_energy (state s) (params s) em = Raise ex →
  let s1 := set_energy_err 0 (set_energy_accum 0 s) in
  energy_check em s =
    if switches s 0 then
      (Raise (UnboundLocalError "e"),
       set_dt_max 0.015 (set_base_dt 0.004 (set_integrator "rk4" s1)))
    else if energy_threshold s * 0.5 <? 0 then
      (Ok (), set_dt_max (Py.max 0.001 (dt_max s * 0.85)) s1)
    else
      (Ok (), set_dt_max
                (Py.min (if String.eqb (integrator s) "rk4" then 0.015 else 0.03)
                        (dt_max s * 1.05)) s1).
Proof.
  intros He s1. subst s1. unfold energy_check, switches.
  unfold mbind, Sim_bind, read, assign, call.
  cbn [state params energy_ref set_energy_accum]. rewrite He.
  cbn -[String.eqb Py.max Py.min].
  repeat match goal with
         | |- context [if ?c then _ else _] => destruct c
         end; reflexivity.
Qed.

End Energy.

Section Autoswitch.
Context `{Libm}.

Lemma accumulated_fields dt em s :
  state (accumulated dt em s) = state s ∧
  params (accumulated dt em s) = params s ∧
  integrator (accumulated dt em s) = integrator s ∧
  autoswitch (accumulated dt em s) = autoswitch s ∧
  energy_threshold (accumulated dt em s) = energy_threshold s ∧
  mode (accumulated dt em s) = mode s.
Proof.
  unfold accumulated, captured. destruct (energy_ref s); repeat split.
Qed.

Lemma accumulated_reference dt em s e :
  total_energy (state s) (params s) em = Ok e →
  default e (energy_ref (accumulated dt em s)) = default e (energy_ref s).
Proof.
  intros He. unfold accumulated, captured.
  destruct (energy_ref s) as [r|] eqn:Hr;
    cbn [energy_ref set_energy_accum set_energy_ref];
    [rewrite Hr | rewrite He]; reflexivity.
Qed.

(** Where [step] ends, by the outcome of its phases. *)
Lemma step_from_before_energy dt s s1 :
  before_energy dt (mode s) s = (Ok (), s1) →
  step dt s =
    (energy_monitoring dt (energy_mode_of (mode s));; trail_update) s1.
Proof.
  intros Hb. rewrite step_phases. unfold before_trail.
  unfold mbind, Sim_bind. rewrite Hb. reflexivity.
Qed.

Lemma step_before_energy_raises dt s e s1 :
  before_energy dt (mode s) s = (Raise e, s1) → step dt s = (Raise e, s1).
Proof.
  intros Hb. rewrite step_phases. unfold before_trail.
  unfold mbind, Sim_bind. rewrite Hb. reflexivity.
Qed.

Lemma trail_update_same_but_trail s0 : keeps (same_but_trail s0) trail_update.
Proof. apply trail_update_keeps. frame. Qed.

(** After the energy monitoring only the trail changes. *)
Lemma monitoring_then_trail dt em s1 :
  same_but_trail (energy_monitoring dt em s1).2
    ((energy_monitoring dt em;; trail_update) s1).2.
Proof.
  unfold mbind, Sim_bind.
  destruct (energy_monitoring dt em s1) as [[[]|e] s2]; cbn [snd].
  - apply trail_update_same_but_trail. repeat split.
  - repeat split.
Qed.

Lemma run_steps_cons dt dts s :
  run_steps (dt :: dts) s = run_steps dts (step dt s).2.
Proof. reflexivity. Qed.

Lemma step_keeps_rk4 dt : keeps (λ s, integrator s = "rk4") (step dt).
Proof.
  intros s Hs. rewrite step_phases.
  refine (keeps_bind (λ s, integrator s = "rk4")
            (before_trail dt (mode s)) (λ _, trail_update) _ _ s Hs).
  - apply before_trail_keeps; first [frame | reflexivity].
  - intros _. apply trail_update_keeps. frame.
Qed.

Lemma run_steps_keeps_rk4 dts s :
  integrator s = "rk4" → integrator (run_steps dts s) = "rk4".
Proof.
  revert s. induction dts as [|dt dts IH]; intros s Hs.
  - exact Hs.
  - cbn. apply IH, step_keeps_rk4, Hs.
Qed.

(** The energy monitoring when the check fires and measures a drift above
    the threshold, with the autoswitch on and the symplectic integrator. *)
Lemma energy_monitoring_switches dt em s e :
  undamped s = true →
  (energy_check_interval s <=? _energy_accum s + dt) = true →
  total_energy (state s) (params s) em = Ok e →
  switches s (drift e (default e (energy_ref s))) = true →
  ∃ s', energy_monitoring dt em s = (Ok (), s') ∧
        integrator s' = "rk4" ∧ energy_ref s' = Some e ∧
        base_dt s' = 0.004 ∧ dt_max s' = 0.015 ∧
        energy_err s' = drift e (default e (energy_ref s)).
Proof.
  intros Hd Hfire He Hsw.
  rewrite (energy_monitoring_undamped dt em s Hd), Hfire.
  destruct (accumulated_fields dt em s) as (Hst & Hp & Hi & Ha & Ht & _).
  rewrite (energy_check_measured em (accumulated dt em s) e)
    by (rewrite Hst, Hp; exact He).
  rewrite (accumulated_reference dt em s e He).
  unfold switches in *. rewrite Hi, Ha, Ht, Hsw.
  eexists. split; [reflexivity |]. repeat split.
Qed.

(** The integrator a step ends with: ["rk4"] when its energy check switches,
    the one it started with otherwise. *)
Lemma step_integrator dt s :
  integrator (step dt s).2 = if switch_due dt s then "rk4" else integrator s.
Proof.
  unfold switch_due.
  destruct (before_energy dt (mode s) s) as [[[]|ex] s1] eqn:Hb.
  - destruct (before_energy_controls dt (mode s) s _ s1 Hb)
      as (_ & Hp & Hi & _ & _ & _ & _ & Hival & Hacc & Ha & Hthr).
    rewrite (step_from_before_energy dt s s1 Hb).
    destruct (monitoring_then_trail dt (energy_mode_of (mode s)) s1)
      as ((_ & _ & Hi' & _) & _).
    rewrite Hi'. clear Hi'.
    assert (Hd1 : undamped s1 = undamped s)
      by (unfold undamped; rewrite Hp; reflexivity).
    destruct (undamped s) eqn:Hd; cbn [andb].
    + rewrite (energy_monitoring_undamped dt _ s1 Hd1), Hival, Hacc.
      destruct (accumulated_fields dt (energy_mode_of (mode s)) s1)
        as (_ & _ & Hai & Haa & Hat & _).
      destruct (energy_check_interval s <=? _energy_accum s + dt); cbn [andb].
      * assert (Hsw : ∀ err,
                  switches (accumulated dt (energy_mode_of (mode s)) s1) err
                  = switches s err)
          by (intros err; unfold switches; rewrite Hai, Haa, Hat, Hi, Ha, Hthr;
              reflexivity).
        unfold check_drift.
        destruct (total_energy (state (accumulated dt (energy_mode_of (mode s)) s1))
                    (params (accumulated dt (energy_mode_of (mode s)) s1))
                    (energy_mode_of (mode s))) as [e|ex] eqn:He.
        -- rewrite (energy_check_measured _ _ e He). cbv zeta. rewrite Hsw.
           destruct (switches s _); [reflexivity |].
           destruct (_ <? _); cbn [snd]; setters; congruence.
        -- rewrite (energy_check_failed _ _ ex He). cbv zeta. rewrite Hsw.
           destruct (switches s _); [reflexivity |].
           destruct (_ <? _); cbn [snd]; setters; congruence.
      * cbn [snd]. congruence.
    + rewrite energy_monitoring_damped by (rewrite Hd1; reflexivity).
      cbn [snd]. exact Hi.
  - rewrite (step_before_energy_raises dt s ex s1 Hb). cbn [snd].
    destruct (before_energy_controls dt (mode s) s _ s1 Hb)
      as (_ & _ & Hi & _).
    exact Hi.
Qed.

(** The switching check in terms of the energy it measures. *)
Lemma switch_due_measured dt s s1 e :
  before_energy dt (mode s) s = (Ok (), s1) →
  total_energy (state s1) (params s) (energy_mode_of (mode s)) = Ok e →
  switch_due dt s =
    undamped s && (energy_check_interval s <=? _energy_accum s + dt) &&
    switches s (drift e (default e (energy_ref s))).
Proof.
  intros Hb He. unfold switch_due. rewrite Hb.
  destruct (before_energy_controls dt (mode s) s _ s1 Hb)
    as (_ & Hp & _ & _ & _ & Href & _).
  destruct (accumulated_fields dt (energy_mode_of (mode s)) s1)
    as (Hst & Hap & _).
  unfold check_drift. rewrite Hst, Hap, Hp, He.
  rewrite (accumulated_reference dt (energy_mode_of (mode s)) s1 e)
    by (rewrite Hp; exact He).
  rewrite Href. reflexivity.
Qed.

Lemma switch_due_conditions dt s :
  switch_due dt s = true →
  autoswitch s = true ∧ integrator s = "symplectic" ∧ undamped s = true ∧
  (energy_check_interval s <=? _energy_accum s + dt) = true.
Proof.
  unfold switch_due, switches.
  destruct (before_energy dt (mode s) s) as [[[]|ex] s1]; [| discriminate].
  intros Hsw.
  apply andb_prop in Hsw as [Hsw Hcheck]. apply andb_prop in Hsw as [Hd Hfire].
  apply andb_prop in Hcheck as [Hcheck _].
  apply andb_prop in Hcheck as [Hauto Hsym].
  apply String.eqb_eq in Hsym. repeat split; assumption.
Qed.

Lemma run_steps_app dts dts' s :
  run_steps (dts ++ dts') s = run_steps dts' (run_steps dts s).
Proof. apply foldl_app. Qed.

(** Steps that run no switching check leave the integrator as it is. *)
Lemma quiet_steps_integrator dts s :
  quiet_steps dts s = true → integrator (run_steps dts s) = integrator s.
Proof.
  revert s. induction dts as [|dt dts IH]; intros s Hq; [reflexivity |].
  cbn [quiet_steps] in Hq. apply andb_prop in Hq as [Hdt Hq].
  rewrite run_steps_cons, (IH _ Hq), step_integrator.
  destruct (switch_due dt s); [discriminate | reflexivity].
Qed.

(** C3: with autoswitch enabled and the symplectic integrator, a step whose
    energy check measures a drift above [energy_threshold] switches the
    integrator to ["rk4"], sets the energy reference to the energy just
    measured and resets [base_dt] and [dt_max] to the RK4 defaults; and once
    the integrator is ["rk4"], no [step] call switches it back. The switch
    happens at no other step: a step whose measured drift does not exceed the
    threshold keeps the integrator, a step changes the integrator exactly
    when it runs a switching check ([switch_due]: autoswitch on, symplectic
    integrator, no damping, the check interval reached, recorded drift above
    the threshold), and over a run of steps the integrator stays as it was
    up to the first switching check, is ["rk4"] after it and stays so. *)
Theorem autoswitch_to_rk4 :
  (∀ dt s s1 e,
     before_energy dt (mode s) s = (Ok (), s1) →
     undamped s = true → autoswitch s = true →
     integrator s = "symplectic" →
     (energy_check_interval s <=? _energy_accum s + dt) = true →
     total_energy (state s1) (params s) (energy_mode_of (mode s)) = Ok e →
     (energy_threshold s <? drift e (default e (energy_ref s))) = true →
     integrator (step dt s).2 = "rk4" ∧
     energy_ref (step dt s).2 = Some e ∧
     base_dt (step dt s).2 = 0.004 ∧ dt_max (step dt s).2 = 0.015 ∧
     energy_err (step dt s).2 = drift e (default e (energy_ref s))) ∧
  (∀ dt s, integrator s = "rk4" → integrator (step dt s).2 = "rk4") ∧
  (∀ dts s, integrator s = "rk4" → integrator (run_steps dts s) = "rk4") ∧
  (∀ dt s s1 e,
     before_energy dt (mode s) s = (Ok (), s1) →
     total_energy (state s1) (params s) (energy_mode_of (mode s)) = Ok e →
     (energy_threshold s <? drift e (default e (energy_ref s))) = false →
     integrator (step dt s).2 = integrator s) ∧
  (∀ dt s,
     integrator (step dt s).2 = if switch_due dt s then "rk4" else integrator s) ∧
  (∀ dt s,
     switch_due dt s = true →
     autoswitch s = true ∧ integrator s = "symplectic" ∧ undamped s = true ∧
     (energy_check_interval s <=? _energy_accum s + dt) = true) ∧
  (∀ dt s s1 e,
     before_energy dt (mode s) s = (Ok (), s1) →
     total_energy (state s1) (params s) (energy_mode_of (mode s)) = Ok e →
     switch_due dt s =
       undamped s && (energy_check_interval s <=? _energy_accum s + dt) &&
       (autoswitch s && String.eqb (integrator s) "symplectic" &&
        (energy_threshold s <? drift e (default e (energy_ref s))))) ∧
  (∀ dts s,
     quiet_steps dts s = true → integrator (run_steps dts s) = integrator s) ∧
  (∀ dts dt more s,
     quiet_steps dts s = true → switch_due dt (run_steps dts s) = true →
     integrator s = "symplectic" ∧
     integrator (run_steps dts s) = "symplectic" ∧
     integrator (run_steps (dts ++ [dt]) s) = "rk4" ∧
     integrator (run_steps (dts ++ dt :: more) s) = "rk4").
Proof.
  split; [| split; [| split; [| split; [| split; [| split; [| split; [| split]]]]]]].
  - intros dt s s1 e Hb Hd Hauto Hsym Hfire He Hdrift.
    destruct (before_energy_controls dt (mode s) s _ s1 Hb)
      as (_ & Hp & Hi & _ & _ & Href & _ & Hival & Hacc & Ha & Hthr).
    destruct (energy_monitoring_switches dt (energy_mode_of (mode s)) s1 e)
      as (s2 & Hmon & Hi2 & Hr2 & Hb2 & Hd2 & He2).
    + unfold undamped in *. rewrite Hp. exact Hd.
    + rewrite Hival, Hacc. exact Hfire.
    + rewrite Hp. exact He.
    + unfold switches. rewrite Ha, Hi, Hthr, Href, Hauto, Hsym, Hdrift.
      reflexivity.
    + rewrite (step_from_before_energy dt s s1 Hb).
      pose proof (monitoring_then_trail dt (energy_mode_of (mode s)) s1) as Hsame.
      rewrite Hmon in Hsame. cbn [snd] in Hsame.
      destruct Hsame as ((_ & _ & Hi' & Hb' & Hd' & Hr' & He' & _) & _).
      rewrite Hi', Hr', Hb', Hd', He', Hi2, Hr2, Hb2, Hd2, He2, Href.
      repeat split.
  - intros dt s. apply step_keeps_rk4.
  - intros dts s. apply run_steps_keeps_rk4.
  - intros dt s s1 e Hb He Hdrift.
    rewrite step_integrator, (switch_due_measured dt s s1 e Hb He).
    unfold switches. rewrite Hdrift, !andb_false_r. reflexivity.
  - intros dt s. apply step_integrator.
  - intros dt s. apply switch_due_conditions.
  - intros dt s s1 e Hb He. apply (switch_due_measured dt s s1 e Hb He).
  - intros dts s. apply quiet_steps_integrator.
  - intros dts dt more s Hq Hsw.
    pose proof (quiet_steps_integrator dts s Hq) as Hrun.
    destruct (switch_due_conditions dt _ Hsw) as (_ & Hsym & _).
    assert (Hnext : integrator (run_steps (dts ++ [dt]) s) = "rk4").
    { rewrite run_steps_app, run_steps_cons. cbn [run_steps foldl].
      rewrite step_integrator, Hsw. reflexivity. }
    split; [congruence |]. split; [exact Hsym |]. split; [exact Hnext |].
    change (dt :: more) with ([dt] ++ more).
    rewrite app_assoc, run_steps_app. apply run_steps_keeps_rk4, Hnext.
Qed.

(** The energy monitoring when the check fires and [total_energy] raises. *)
Lemma energy_monitoring_failure dt em s ex :
  undamped s = true →
  (energy_check_interval s <=? _energy_accum s + dt) = true →
  total_energy (state s) (params s) em = Raise ex →
  energy_err (energy_monitoring dt em s).2 = 0 ∧
  (energy_monitoring dt em s).1 =
    if switches s 0 then Raise (UnboundLocalError "e") else Ok ().
Proof.
  intros Hd Hfire He.
  rewrite (energy_monitoring_undamped dt em s Hd), Hfire.
  destruct (accumulated_fields dt em s) as (Hst & Hp & Hi & Ha & Ht & _).
  rewrite (energy_check_failed em (accumulated dt em s) ex)
    by (rewrite Hst, Hp; exact He).
  unfold switches. rewrite Hi, Ha, Ht.
  destruct (autoswitch s && String.eqb (integrator s) "symplectic"
            && (energy_threshold s <? 0)); [split; reflexivity |].
  destruct (energy_threshold s * 0.5 <? 0); split; reflexivity.
Qed.

(** C8, as the code has it: when [total_energy] raises in a step's energy
    check the exception is caught and the drift recorded as 0; the step then
    goes on to the trail update, unless the switch condition holds with the
    zero drift (autoswitch on, symplectic integrator, a negative
    [energy_threshold]): the switch branch then reads the local [e], which
    the failed computation left unbound, and [step] raises
    [UnboundLocalError]. *)
Theorem energy_failure_unbound_local (dt : float) (s s1 : SimulationSession)
    (ex : exn) :
  before_energy dt (mode s) s = (Ok (), s1) →
  undamped s = true →
  (energy_check_interval s <=? _energy_accum s + dt) = true →
  total_energy (state s1) (params s) (energy_mode_of (mode s)) = Raise ex →
  energy_err (step dt s).2 = 0 ∧
  (switches s 0 = true → (step dt s).1 = Raise (UnboundLocalError "e")) ∧
  (switches s 0 = false →
     (before_trail dt (mode s) s).1 = Ok () ∧
     (step dt s).1 = (trail_update (before_trail dt (mode s) s).2).1).
Proof.
  intros Hb Hd Hfire He.
  destruct (before_energy_controls dt (mode s) s _ s1 Hb)
    as (_ & Hp & Hi & _ & _ & Href & _ & Hival & Hacc & Ha & Hthr).
  destruct (energy_monitoring_failure dt (energy_mode_of (mode s)) s1 ex)
    as (Herr & Hout).
  { unfold undamped in *. rewrite Hp. exact Hd. }
  { rewrite Hival, Hacc. exact Hfire. }
  { rewrite Hp. exact He. }
  assert (Hsw : switches s1 0 = switches s 0)
    by (unfold switches; rewrite Ha, Hi, Hthr; reflexivity).
  rewrite Hsw in Hout.
  assert (Hbt : before_trail dt (mode s) s
                = energy_monitoring dt (energy_mode_of (mode s)) s1).
  { unfold before_trail, mbind, Sim_bind. rewrite Hb. reflexivity. }
  split; [| split].
  - rewrite (step_from_before_energy dt s s1 Hb).
    pose proof (monitoring_then_trail dt (energy_mode_of (mode s)) s1) as Hsame.
    destruct Hsame as ((_ & _ & _ & _ & _ & _ & He' & _) & _).
    rewrite He'. exact Herr.
  - intros Hsw1. rewrite Hsw1 in Hout.
    rewrite (step_from_before_energy dt s s1 Hb). unfold mbind, Sim_bind.
    destruct (energy_monitoring dt (energy_mode_of (mode s)) s1) as [[[]|e] s2];
      cbn [fst] in *; [discriminate | congruence].
  - intros Hsw0. rewrite Hsw0 in Hout. rewrite Hbt. split; [exact Hout |].
    rewrite (step_from_before_energy dt s s1 Hb). unfold mbind, Sim_bind.
    destruct (energy_monitoring dt (energy_mode_of (mode s)) s1) as [[[]|e] s2];
      cbn [fst snd] in *; [reflexivity | discriminate].
Qed.

End Autoswitch.

Lemma autoswitch_to_rk4_witness :
  integrator (@step taylor_libm 0.5 drifting_session).2 = "rk4" ∧
  base_dt (@step taylor_libm 0.5 drifting_session).2 = 0.004 ∧
  dt_max (@step taylor_libm 0.5 drifting_session).2 = 0.015 ∧
  (∃ e, energy_ref (@step taylor_libm 0.5 drifting_session).2 = Some e ∧
        @total_energy taylor_libm
          (state (@step taylor_libm 0.5 drifting_session).2)
          pendulum_params "single" = Ok e) ∧
  integrator (@run_steps taylor_libm [0.5; 0.5; 0.5] drifting_session) = "rk4" ∧
  integrator (@step taylor_libm 0.5 calm_session).2 = "symplectic" ∧
  integrator (@run_steps taylor_libm [0.5; 0.5; 0.5; 0.5] calm_session)
    = "symplectic" ∧
  integrator (@run_steps taylor_libm [0.1] drifting_session) = "symplectic" ∧
  integrator (@run_steps taylor_libm ([0.1] ++ [0.5]) drifting_session) = "rk4" ∧
  integrator (@run_steps taylor_libm ([0.1] ++ [0.5; 0.5]) drifting_session)
    = "rk4".
Proof.
  destruct (@autoswitch_to_rk4 taylor_libm)
    as (Hswitch & Hstay & Hrun & Hbelow & _ & _ & _ & Hcalm & Hfirst).
  pose (s1 := (@before_energy taylor_libm 0.5 "single" drifting_session).2).
  pose (e := match @total_energy taylor_libm (state s1) pendulum_params "single"
             with Ok e => e | Raise _ => 0 end).
  destruct (Hswitch 0.5 drifting_session s1 e) as (Hi & Hr & Hb & Hd & _);
    try (vm_compute; reflexivity).
  split; [exact Hi |]. split; [exact Hb |]. split; [exact Hd |]. split.
  { exists e. split; [exact Hr |]. vm_compute. reflexivity. }
  split.
  { rewrite (@run_steps_cons taylor_libm).
    exact (Hrun [0.5; 0.5] (@step taylor_libm 0.5 drifting_session).2 Hi). }
  split.
  { pose (c1 := (@before_energy taylor_libm 0.5 "single" calm_session).2).
    pose (ec := match @total_energy taylor_libm (state c1) pendulum_params
                        "single"
                with Ok e => e | Raise _ => 0 end).
    exact (Hbelow 0.5 calm_session c1 ec
             ltac:(vm_compute; reflexivity) ltac:(vm_compute; reflexivity)
             ltac:(vm_compute; reflexivity)). }
  split.
  { exact (Hcalm [0.5; 0.5; 0.5; 0.5] calm_session
             ltac:(vm_compute; reflexivity)). }
  destruct (Hfirst [0.1] 0.5 [0.5] drifting_session)
    as (_ & Hquiet & Hthen & Hafter); try (vm_compute; reflexivity).
  split; [exact Hquiet |]. split; [exact Hthen | exact Hafter].
Defined.

Lemma energy_failure_unbound_local_witness :
  @total_energy taylor_libm
    (state (@before_energy taylor_libm 0.5 "single" unbound_session).2)
    (params unbound_session) "single" = Raise (KeyError "m1") ∧
  (@step taylor_libm 0.5 unbound_session).1 = Raise (UnboundLocalError "e") ∧
  energy_err (@step taylor_libm 0.5 unbound_session).2 = 0.
Proof.
  split; [vm_compute; reflexivity |].
  destruct (@energy_failure_unbound_local taylor_libm 0.5 unbound_session
              (@before_energy taylor_libm 0.5 "single" unbound_session).2
              (KeyError "m1"))
    as (Herr & Hraise & _); try (vm_compute; reflexivity).
  split; [apply Hraise; vm_compute; reflexivity | exact Herr].
Defined.

(** ** The energy reference *)

Section EnergyReference.
Context `{Libm}.

Lemma switches_symplectic s err :
  switches s err = true → integrator s = "symplectic".
Proof.
  unfold switches. intros Hsw.
  apply andb_prop in Hsw as [Hsw _]. apply andb_prop in Hsw as [_ Hsym].
  apply String.eqb_eq, Hsym.
Qed.

Lemma accumulated_present dt em s r :
  energy_ref s = Some r → energy_ref (accumulated dt em s) = Some r.
Proof.
  intros Hr. unfold accumulated, captured. rewrite Hr. exact Hr.
Qed.

(** A monitoring that returns and changed the integrator went through the
    switch, with the energy measured. *)
Lemma energy_monitoring_switch_inv dt em s0 s1 :
  energy_monitoring dt em s0 = (Ok (), s1) →
  integrator s1 ≠ integrator s0 →
  ∃ e, total_energy (state s0) (params s0) em = Ok e ∧
       energy_ref s1 = Some e ∧ state s1 = state s0 ∧
       params s1 = params s0 ∧ mode s1 = mode s0.
Proof.
  destruct (undamped s0) eqn:Hd.
  - rewrite (energy_monitoring_undamped dt em s0 Hd).
    destruct (accumulated_fields dt em s0) as (Hst & Hp & Hi & _ & _ & Hm).
    destruct (energy_check_interval s0 <=? _energy_accum s0 + dt).
    + destruct (total_energy (state s0) (params s0) em) as [e|ex] eqn:He.
      * rewrite (energy_check_measured em (accumulated dt em s0) e)
          by (rewrite Hst, Hp; exact He).
        destruct (switches _ _).
        -- intros [= <-] _. exists e. repeat split; assumption.
        -- destruct (_ <? _); intros [= <-] Hne; setters in Hne; congruence.
      * rewrite (energy_check_failed em (accumulated dt em s0) ex)
          by (rewrite Hst, Hp; exact He).
        destruct (switches _ _); [discriminate |].
        destruct (_ <? _); intros [= <-] Hne; setters in Hne; congruence.
    + intros [= <-] Hne. congruence.
  - rewrite (energy_monitoring_damped dt em s0 Hd). intros [= <-] Hne.
    congruence.
Qed.

(** A monitoring that leaves the integrator as it was leaves a present
    reference as it was. *)
Lemma energy_monitoring_keeps_reference dt em s r :
  energy_ref s = Some r →
  integrator (energy_monitoring dt em s).2 = integrator s →
  energy_ref (energy_monitoring dt em s).2 = Some r.
Proof.
  intros Hr. destruct (undamped s) eqn:Hd.
  - rewrite (energy_monitoring_undamped dt em s Hd).
    destruct (accumulated_fields dt em s) as (Hst & Hp & Hi & _ & _ & _).
    pose proof (accumulated_present dt em s r Hr) as Hr'.
    destruct (energy_check_interval s <=? _energy_accum s + dt); [| intros _; exact Hr'].
    destruct (total_energy (state s) (params s) em) as [e|ex] eqn:He.
    + rewrite (energy_check_measured em (accumulated dt em s) e)
        by (rewrite Hst, Hp; exact He).
      destruct (switches _ _) eqn:Hsw.
      * apply switches_symplectic in Hsw. setters. intros Hrk. congruence.
      * destruct (_ <? _); intros _; exact Hr'.
    + rewrite (energy_check_failed em (accumulated dt em s) ex)
        by (rewrite Hst, Hp; exact He).
      destruct (switches _ _) eqn:Hsw.
      * apply switches_symplectic in Hsw. setters. intros Hrk. congruence.
      * destruct (_ <? _); intros _; exact Hr'.
  - rewrite (energy_monitoring_damped dt em s Hd). intros _. exact Hr.
Qed.

Lemma step_damped_keeps_reference dt s :
  undamped s = false → energy_ref (step dt s).2 = energy_ref s.
Proof.
  intros Hd.
  pose (I := λ x, energy_ref x = energy_ref s ∧ params x = params s).
  assert (Hstep : I (step dt s).2); [| exact (proj1 Hstep)].
  rewrite step_phases.
  refine (keeps_bind I (before_trail dt (mode s)) (λ _, trail_update) _ _ s _).
  - unfold before_trail. apply keeps_bind.
    + apply before_energy_keeps; frame.
    + intros _ x [Hr Hp]. rewrite energy_monitoring_damped; [split; assumption |].
      unfold undamped in *. rewrite Hp. exact Hd.
  - intros _. apply trail_update_keeps. frame.
  - split; reflexivity.
Qed.

Lemma step_switch_recaptures dt s s' :
  step dt s = (Ok (), s') → integrator s' ≠ integrator s →
  ∃ e, energy_ref s' = Some e ∧
       total_energy (state s') (params s') (energy_mode_of (mode s')) = Ok e.
Proof.
  intros Hstep Hne.
  destruct (before_energy dt (mode s) s) as [[[]|ex] s0] eqn:Hb.
  - destruct (before_energy_controls dt (mode s) s _ s0 Hb)
      as (Hm0 & _ & Hi0 & _).
    rewrite (step_from_before_energy dt s s0 Hb) in Hstep.
    pose proof (monitoring_then_trail dt (energy_mode_of (mode s)) s0) as Hsame.
    rewrite Hstep in Hsame. cbn [snd] in Hsame.
    apply bind_inv_Ok in Hstep as ([] & s1 & Hmon & _).
    rewrite Hmon in Hsame. cbn [snd] in Hsame.
    destruct Hsame as ((Hm' & Hp' & Hi' & _ & _ & Hr' & _) & Hst').
    destruct (energy_monitoring_switch_inv dt _ s0 s1 Hmon)
      as (e & He & Hr1 & Hst1 & Hp1 & Hm1); [congruence |].
    exists e. split; [congruence |].
    rewrite Hst', Hp', Hm', Hst1, Hp1, Hm1, Hm0. exact He.
  - rewrite (step_before_energy_raises dt s ex s0 Hb) in Hstep. discriminate.
Qed.

Lemma step_keeps_reference dt s r :
  energy_ref s = Some r → integrator (step dt s).2 = integrator s →
  energy_ref (step dt s).2 = Some r.
Proof.
  intros Hr.
  destruct (before_energy dt (mode s) s) as [[[]|ex] s0] eqn:Hb;
    destruct (before_energy_controls dt (mode s) s _ s0 Hb)
      as (_ & _ & Hi0 & _ & _ & Hr0 & _).
  - rewrite (step_from_before_energy dt s s0 Hb).
    destruct (monitoring_then_trail dt (energy_mode_of (mode s)) s0)
      as ((_ & _ & Hi' & _ & _ & Hr' & _) & _).
    rewrite Hi', Hr'. intros Hi. apply energy_monitoring_keeps_reference; congruence.
  - rewrite (step_before_energy_raises dt s ex s0 Hb). cbn [snd]. congruence.
Qed.

(** C2, as the code has it: [reset()] clears the energy reference; a [step]
    taken with nonzero damping leaves it untouched; a [step] that returns and
    changed the integrator (the autoswitch) has recaptured it from the energy
    of the current state; and a present reference stays through every [step]
    that leaves the integrator as it was. *)
Theorem energy_reference_epochs :
  (∀ s, energy_ref (reset s).2 = None) ∧
  (∀ dt s, undamped s = false → energy_ref (step dt s).2 = energy_ref s) ∧
  (∀ dt s s',
     step dt s = (Ok (), s') → integrator s' ≠ integrator s →
     ∃ e, energy_ref s' = Some e ∧
          total_energy (state s') (params s') (energy_mode_of (mode s')) = Ok e) ∧
  (∀ dt s r,
     energy_ref s = Some r → integrator (step dt s).2 = integrator s →
     energy_ref (step dt s).2 = Some r).
Proof.
  split; [reflexivity |]. split; [apply step_damped_keeps_reference |].
  split; [apply step_switch_recaptures | apply step_keeps_reference].
Qed.

End EnergyReference.

Lemma energy_reference_epochs_witness :
  @undamped stale_session = false ∧
  energy_ref (@step taylor_libm 0.01 stale_session).2 = Some 5 ∧
  energy_ref (reset stale_session).2 = None ∧
  ∃ e, energy_ref (@step taylor_libm 0.5 drifting_session).2 = Some e ∧
       @total_energy taylor_libm
         (state (@step taylor_libm 0.5 drifting_session).2)
         (params (@step taylor_libm 0.5 drifting_session).2)
         (energy_mode_of (mode (@step taylor_libm 0.5 drifting_session).2))
       = Ok e.
Proof.
  destruct (@energy_reference_epochs taylor_libm)
    as (Hreset & Hdamped & Hswitch & _).
  split; [reflexivity |]. split; [apply (Hdamped 0.01 stale_session eq_refl) |].
  split; [apply Hreset |].
  apply (Hswitch 0.5 drifting_session).
  - vm_compute. reflexivity.
  - vm_compute. discriminate.
Defined.

(** C2 as stated fails: after damping became nonzero the steps keep the
    reference captured before (5 J, while the energy of the current state is
    negative), and once damping is zero again the drift is computed against
    it. The same holds after an assignment to [integrator]. *)
Lemma energy_reference_not_reset_counterexample :
  let s1 := (@step taylor_libm 0.01 stale_session).2 in
  let s2 := (@step taylor_libm 0.5 (set_params default_params s1)).2 in
  let s3 := (@step taylor_libm 0.01
               (set_integrator "symplectic"
                  (set_params default_params stale_session))).2 in
  @undamped stale_session = false ∧
  energy_ref s1 = Some 5 ∧
  (∃ e, @total_energy taylor_libm (state s1) (params s1) "double" = Ok e ∧
        (e <? 0) = true) ∧
  energy_ref s2 = Some 5 ∧ (1 <? energy_err s2) = true ∧
  integrator s3 = "symplectic" ∧ energy_ref s3 = Some 5.
Proof.
  vm_compute. repeat split; try reflexivity.
  eexists. split; reflexivity.
Qed.

(** * Further properties of the code *)

(** ** The order of floats *)

Section FloatOrder.

Lemma SFcompare_Lt_Gt (x y : spec_float) :
  SFcompare x y = Some Lt → SFcompare y x = Some Gt.
Proof.
  destruct x as [sx|sx| |sx mx ex], y as [sy|sy| |sy my ey];
    unfold SFcompare; try discriminate;
    try (destruct sx; discriminate); try (destruct sy; discriminate);
    try (destruct sx, sy; (discriminate || reflexivity)).
  destruct sx, sy; try discriminate; try reflexivity;
    change (Pos.compare_cont Eq my mx) with (my ?= mx)%positive;
    change (Pos.compare_cont Eq mx my) with (mx ?= my)%positive;
    rewrite (Z.compare_antisym ex ey), (Pos.compare_antisym mx my);
    destruct (ex ?= ey)%Z; cbn [CompOpp]; try discriminate; try reflexivity;
    destruct (mx ?= my)%positive; cbn [CompOpp];
    (discriminate || reflexivity).
Qed.

Lemma ltb_antisym (a b : float) : (a <? b) = true → (b <? a) = false.
Proof.
  rewrite !ltb_spec. unfold SFltb.
  destruct (SFcompare (Prim2SF a) (Prim2SF b)) as [[| |]|] eqn:Hab;
    try discriminate.
  rewrite (SFcompare_Lt_Gt _ _ Hab). reflexivity.
Qed.

Lemma ltb_irrefl (a : float) : (a <? a) = false.
Proof.
  destruct (a <? a) eqn:Haa; [| reflexivity].
  rewrite (ltb_antisym a a Haa) in Haa. discriminate.
Qed.

(** [max(a, b)] is below neither argument and [min(a, b)] above neither,
    also with NaN arguments. *)
Lemma max_not_below (a b : float) :
  (Py.max a b <? a) = false ∧ (Py.max a b <? b) = false.
Proof.
  unfold Py.max. destruct (a <? b) eqn:Hab.
  - split; [apply ltb_antisym, Hab | apply ltb_irrefl].
  - split; [apply ltb_irrefl | exact Hab].
Qed.

Lemma min_not_above (a b : float) :
  (a <? Py.min a b) = false ∧ (b <? Py.min a b) = false.
Proof.
  unfold Py.min. destruct (b <? a) eqn:Hba.
  - split; [apply ltb_antisym, Hba | apply ltb_irrefl].
  - split; [apply ltb_irrefl | exact Hba].
Qed.

End FloatOrder.

(** ** Lists built by comprehension and loops *)

Section Comprehension.
Context {A : Type}.

Lemma comprehension_from_length (f : nat → result A) i n l :
  Py.comprehension_from f i n = Ok l → length l = n.
Proof.
  revert i l. induction n as [|n IH]; intros i l; cbn [Py.comprehension_from].
  - intros [= <-]. reflexivity.
  - destruct (f i) as [a|e]; cbn [mbind result_bind]; [| discriminate].
    destruct (Py.comprehension_from f (S i) n) as [l'|e] eqn:Hl';
      cbn [mbind result_bind mret result_ret]; [| discriminate].
    intros [= <-]. cbn. f_equal. apply (IH (S i) l' Hl').
Qed.

Lemma comprehension_from_lookup (f : nat → result A) i n l j :
  Py.comprehension_from f i n = Ok l → (j < n)%nat →
  ∃ a, f (i + j)%nat = Ok a ∧ l !! j = Some a.
Proof.
  revert i l j. induction n as [|n IH]; intros i l j; cbn [Py.comprehension_from].
  - intros _ Hj. lia.
  - destruct (f i) as [a|e] eqn:Ha; cbn [mbind result_bind]; [| discriminate].
    destruct (Py.comprehension_from f (S i) n) as [l'|e] eqn:Hl';
      cbn [mbind result_bind mret result_ret]; [| discriminate].
    intros [= <-] Hj. destruct j as [|j].
    + exists a. rewrite Nat.add_0_r. split; [exact Ha | reflexivity].
    + destruct (IH (S i) l' j Hl') as (b & Hb & Hlook); [lia |].
      exists b. split; [| exact Hlook].
      replace (i + S j)%nat with (S i + j)%nat by lia. exact Hb.
Qed.

(** A comprehension raises what its first failing element raises. *)
Lemma comprehension_from_raises (f : nat → result A) i n k e :
  (k < n)%nat → (∀ j, (j < k)%nat → ∃ a, f (i + j)%nat = Ok a) →
  f (i + k)%nat = Raise e →
  Py.comprehension_from f i n = Raise e.
Proof.
  revert i k. induction n as [|n IH]; intros i k Hk Hbefore Hat; [lia |].
  cbn [Py.comprehension_from]. destruct k as [|k].
  - rewrite Nat.add_0_r in Hat. rewrite Hat. reflexivity.
  - destruct (Hbefore 0%nat) as (a & Ha); [lia |].
    rewrite Nat.add_0_r in Ha. rewrite Ha. cbn [mbind result_bind].
    rewrite (IH (S i) k); [reflexivity | lia | |].
    + intros j Hj. destruct (Hbefore (S j)) as (b & Hb); [lia |].
      exists b. replace (S i + j)%nat with (i + S j)%nat by lia. exact Hb.
    + replace (S i + k)%nat with (i + S k)%nat by lia. exact Hat.
Qed.

(** A loop whose body keeps a property of the state keeps it. *)
Lemma for_range_invariant (P : A → Prop) (body : A → result A) n s s' :
  (∀ x y, P x → body x = Ok y → P y) →
  P s → Py.for_range n body s = Ok s' → P s'.
Proof.
  intros Hbody. revert s. induction n as [|n IH]; intros s Hs;
    cbn [Py.for_range].
  - intros [= <-]. exact Hs.
  - destruct (body s) as [y|e] eqn:Hy; cbn [mbind result_bind]; [| discriminate].
    apply IH. apply (Hbody s y Hs Hy).
Qed.

End Comprehension.

(** Peels the binds of a computation that returned. *)
Ltac returned :=
  repeat lazymatch goal with
         | |- mbind _ ?m = Ok _ → _ =>
             let E := fresh "E" in
             destruct m eqn:E; cbn [mbind result_bind mret result_ret];
             [| discriminate]
         | |- (let (_, _) := ?p in _) = Ok _ → _ => destruct p
         end.

(** ** The derivative functions *)

Section Derivatives.
Context `{Libm}.

(** X1: [single_pendulum_derivatives] reads the first two state components
    only: with fewer it raises [ValueError] whatever the parameters, and a
    missing [g] or [l1] is a [KeyError] of that key; when it returns, the
    result has two components, the first being the angular velocity. *)
Theorem single_pendulum_derivatives_shape (st : State) (prm : Params) :
  ((length st < 2)%nat →
     single_pendulum_derivatives st prm = Raise ValueError) ∧
  ((2 ≤ length st)%nat → prm !! "g" = None →
     single_pendulum_derivatives st prm = Raise (KeyError "g")) ∧
  ((2 ≤ length st)%nat → is_Some (prm !! "g") → prm !! "l1" = None →
     single_pendulum_derivatives st prm = Raise (KeyError "l1")) ∧
  (∀ d, single_pendulum_derivatives st prm = Ok d →
     ∃ omega a, d = [omega; a] ∧ st !! 1%nat = Some omega ∧
                single_pendulum_derivatives (take 2 st) prm = Ok d).
Proof.
  unfold single_pendulum_derivatives, Py.getitem.
  destruct st as [|th [|w rest]]; cbn [length take Py.unpack2 mbind result_bind].
  - repeat split; try (intros; lia); try reflexivity. intros d; discriminate.
  - repeat split; try (intros; lia); try reflexivity. intros d; discriminate.
  - rewrite take_0. cbn [Py.unpack2 mbind result_bind].
    split; [intros; lia |]. split; [| split].
    + intros _ ->. reflexivity.
    + intros _ [g ->] ->. reflexivity.
    + intros d. destruct (prm !! "g") as [g|]; [| discriminate].
      destruct (prm !! "l1") as [l|]; [| discriminate].
      cbn [mbind result_bind].
      destruct (math_sin th) as [sx|e] eqn:Hsin; [| discriminate].
      cbn [mbind result_bind mret result_ret]. intros [= <-].
      eexists _, _. split; [reflexivity |]. split; [reflexivity |].
      cbn [take Py.unpack2 mbind result_bind]. rewrite Hsin. reflexivity.
Qed.

(** X2: [double_pendulum_derivatives] raises [ValueError] on a state of fewer
    than four components, whatever the parameters; when it returns, the
    result has four components and its first and third are the angular
    velocities of the state. *)
Theorem double_pendulum_derivatives_shape (st : State) (prm : Params) :
  ((length st < 4)%nat →
     double_pendulum_derivatives st prm = Raise ValueError) ∧
  (∀ d, double_pendulum_derivatives st prm = Ok d →
     ∃ w1 a1 w2 a2, d = [w1; a1; w2; a2] ∧
       st !! 1%nat = Some w1 ∧ st !! 3%nat = Some w2 ∧
       (∀ k, k ∈ ["m1"; "m2"; "l1"; "l2"; "g"] → is_Some (prm !! k))).
Proof.
  unfold double_pendulum_derivatives, Py.getitem.
  destruct st as [|th1 [|w1 [|th2 [|w2 rest]]]];
    cbn [length take Py.unpack4 mbind result_bind];
    try (split; [reflexivity | intros d; discriminate]).
  rewrite take_0. cbn [Py.unpack4 mbind result_bind].
  split; [intros; lia |]. intros d.
  destruct (prm !! "m1") as [m1|] eqn:Hm1; [| discriminate].
  destruct (prm !! "m2") as [m2|] eqn:Hm2; [| discriminate].
  destruct (prm !! "l1") as [l1|] eqn:Hl1; [| discriminate].
  destruct (prm !! "l2") as [l2|] eqn:Hl2; [| discriminate].
  destruct (prm !! "g") as [g|] eqn:Hg; [| discriminate].
  returned. intros [= <-]. eexists _, _, _, _. repeat split.
  intros k Hk.
  repeat (apply elem_of_cons in Hk as [-> | Hk]; [eauto |]).
  apply elem_of_nil in Hk. contradiction.
Qed.

End Derivatives.

(** ** The integrators and the length of the state *)

Section IntegratorLength.

Lemma comprehension_length {A} n (f : nat → result A) l :
  Py.comprehension n f = Ok l → length l = n.
Proof. apply comprehension_from_length. Qed.

Lemma rk4_step_keeps_length st dt prm deriv st' :
  rk4_step st dt prm deriv = Ok st' → length st' = length st.
Proof. unfold rk4_step. returned. apply comprehension_length. Qed.

Lemma symplectic_euler_step_keeps_length st dt prm deriv st' :
  symplectic_euler_step st dt prm deriv = Ok st' → length st' = length st.
Proof.
  unfold symplectic_euler_step.
  destruct (length st =? 4)%nat eqn:H4; [| destruct (length st =? 2)%nat eqn:H2].
  - apply Nat.eqb_eq in H4. returned. intros [= <-]. rewrite H4. reflexivity.
  - apply Nat.eqb_eq in H2. returned. intros [= <-]. rewrite H2. reflexivity.
  - returned. apply comprehension_length.
Qed.

(** X3: an [rk4_step] that returns keeps the length of the state, for every
    derivative function; when the derivative of the state has fewer
    components than the state, [rk4_step] raises [IndexError]. *)
Theorem rk4_step_length (st : State) (dt : float) (prm : Params)
    (deriv : Deriv) :
  (∀ st', rk4_step st dt prm deriv = Ok st' → length st' = length st) ∧
  (∀ k1, deriv st prm = Ok k1 → (length k1 < length st)%nat →
     rk4_step st dt prm deriv = Raise IndexError).
Proof.
  split.
  - intros st'. apply rk4_step_keeps_length.
  - intros k1 Hk1 Hshort. unfold rk4_step. rewrite Hk1.
    cbn [mbind result_bind]. unfold Py.comprehension.
    rewrite (comprehension_from_raises _ 0 (length st) (length k1) IndexError);
      [reflexivity | exact Hshort | |].
    + intros j Hj. cbn [Nat.add]. unfold Py.item.
      destruct (lookup_lt_is_Some_2 st j) as [x ->]; [lia |].
      destruct (lookup_lt_is_Some_2 k1 j) as [k ->]; [lia |].
      eexists. reflexivity.
    + cbn [Nat.add]. unfold Py.item.
      destruct (lookup_lt_is_Some_2 st (length k1)) as [x ->]; [lia |].
      rewrite (lookup_ge_None_2 k1 (length k1)) by lia. reflexivity.
Qed.

(** X4: a [symplectic_euler_step] that returns keeps the length of the
    state, for every derivative function; for a length other than 2 and 4 it
    is the explicit Euler step [state[i] + dt * d[i]]. *)
Theorem symplectic_euler_step_length (st : State) (dt : float) (prm : Params)
    (deriv : Deriv) :
  (∀ st', symplectic_euler_step st dt prm deriv = Ok st' →
     length st' = length st) ∧
  (length st ≠ 2%nat → length st ≠ 4%nat →
   ∀ st' d, deriv st prm = Ok d →
     symplectic_euler_step st dt prm deriv = Ok st' →
     ∀ i x, st !! i = Some x →
       ∃ k, d !! i = Some k ∧ st' !! i = Some (x + dt * k)).
Proof.
  split.
  - intros st'. apply symplectic_euler_step_keeps_length.
  - intros H2 H4 st' d Hd. unfold symplectic_euler_step.
    apply Nat.eqb_neq in H2, H4. rewrite H4, H2, Hd. cbn [mbind result_bind].
    intros Hcomp i x Hx.
    destruct (comprehension_from_lookup _ 0 (length st) st' i Hcomp)
      as (y & Hy & Hlook); [apply (lookup_lt_Some st i x Hx) |].
    cbn [Nat.add] in Hy. unfold Py.item in Hy. rewrite Hx in Hy.
    cbn [mbind result_bind] in Hy.
    destruct (d !! i) as [k|]; [| discriminate].
    cbn [mbind result_bind mret result_ret] in Hy. injection Hy as <-.
    exists k. split; [reflexivity | exact Hlook].
Qed.

Lemma rk4_integrate_substeps_length st dt_total dt_max prm deriv st' :
  rk4_integrate_substeps st dt_total dt_max prm deriv = Ok st' →
  length st' = length st.
Proof.
  unfold rk4_integrate_substeps. returned.
  apply (for_range_invariant (λ x, length x = length st)); [| reflexivity].
  intros x y Hx Hy. rewrite <- Hx.
  apply (rk4_step_keeps_length x _ prm deriv y Hy).
Qed.

End IntegratorLength.

Lemma rk4_step_length_witness :
  (∃ st', rk4_step [0.5; 0] 0.01 pendulum_params
            (@single_pendulum_derivatives taylor_libm) = Ok st' ∧
          length st' = 2%nat) ∧
  rk4_step [0.5; 0; 0.25; 0] 0.01 pendulum_params
      (@single_pendulum_derivatives taylor_libm)
    = Raise IndexError.
Proof.
  split.
  - eexists. split; [vm_compute; reflexivity |]. reflexivity.
  - apply (proj2 (rk4_step_length [0.5; 0; 0.25; 0] 0.01 pendulum_params
                    (@single_pendulum_derivatives taylor_libm))
             [0; -4.7031645338270405]).
    + vm_compute. reflexivity.
    + simpl. lia.
Defined.

(** ** Angle normalization *)

Section Normalization.

Lemma normalize_angles_keeps_length (st : State) :
  length (normalize_angles st) = length st.
Proof.
  unfold normalize_angles.
  destruct (2 <=? length st)%nat; rewrite ?length_alter;
    destruct (4 <=? _)%nat; rewrite ?length_alter; reflexivity.
Qed.

(** X5: [normalize_angles] keeps the length of the state and every
    component but the angles at index 0 and 2, among them the angular
    velocities; the first angle is wrapped from two components on, the
    second from four components on (a third component without a fourth is
    left as it is), and a shorter state is returned as it is. *)
Theorem normalize_angles_touches_angles_only (st : State) :
  length (normalize_angles st) = length st ∧
  (∀ i, i ≠ 0%nat → i ≠ 2%nat → normalize_angles st !! i = st !! i) ∧
  ((2 ≤ length st)%nat → normalize_angles st !! 0%nat = wrap <$> st !! 0%nat) ∧
  ((4 ≤ length st)%nat → normalize_angles st !! 2%nat = wrap <$> st !! 2%nat) ∧
  ((length st < 4)%nat → normalize_angles st !! 2%nat = st !! 2%nat) ∧
  ((length st < 2)%nat → normalize_angles st = st).
Proof.
  split; [apply normalize_angles_keeps_length |].
  unfold normalize_angles.
  destruct st as [|a [|b [|c [|d rest]]]];
    cbn [length Nat.leb alter list_alter];
    (split; [| split; [| split; [| split]]]);
    try (intros; simpl in *; lia); try (intros; reflexivity);
    intros i H0 H2; destruct i as [|[|[|i]]]; try congruence; reflexivity.
Qed.

Lemma normalize_angles_touches_angles_only_witness :
  normalize_angles [7; 3; -7; 5] !! 1%nat = Some 3 ∧
  normalize_angles [7; 3; -7; 5] !! 3%nat = Some 5 ∧
  normalize_angles [7; 3; -7; 5] !! 0%nat = Some (wrap 7) ∧
  normalize_angles [7; 3; -7] !! 2%nat = Some (-7) ∧
  normalize_angles [7] = [7].
Proof.
  destruct (normalize_angles_touches_angles_only [7; 3; -7; 5])
    as (_ & Hother & H0 & _).
  destruct (normalize_angles_touches_angles_only [7; 3; -7])
    as (_ & _ & _ & _ & H3 & _).
  destruct (normalize_angles_touches_angles_only [7])
    as (_ & _ & _ & _ & _ & H1).
  split; [apply (Hother 1%nat); lia |].
  split; [apply (Hother 3%nat); lia |].
  split; [apply H0; simpl; lia |].
  split; [apply H3; simpl; lia | apply H1; simpl; lia].
Defined.

End Normalization.

(** ** What a [step] changes *)

Section StepOutcome.
Context `{Libm}.

(** The integration either raises and leaves the session as it is, or
    assigns a state of the same length. *)
Lemma advance_outcome dt deriv s :
  (∃ e, advance dt deriv s = (Raise e, s)) ∨
  (∃ st', advance dt deriv s = (Ok (), set_state st' s) ∧
          length st' = length (state s)).
Proof.
  destruct (advance dt deriv s) as [r s'] eqn:Hadv.
  unfold advance, mbind, Sim_bind, read, call, assign in Hadv.
  rewrite !choose_dt_max_returns in Hadv.
  destruct (String.eqb (integrator s) "rk4").
  - destruct (rk4_integrate_substeps _ _ _ _ _) as [st'|e] eqn:Hint.
    + injection Hadv as <- <-. right. exists st'. split; [reflexivity |].
      apply (rk4_integrate_substeps_length _ _ _ _ _ _ Hint).
    + injection Hadv as <- <-. left. exists e. reflexivity.
  - destruct (substep_count _ _) as [steps|e].
    2:{ injection Hadv as <- <-. left. exists e. reflexivity. }
    destruct (Py.for_range _ _ _) as [st'|e] eqn:Hloop.
    + injection Hadv as <- <-. right. exists st'. split; [reflexivity |].
      apply (for_range_invariant (λ x, length x = length (state s))
               _ _ _ _) in Hloop; [exact Hloop | | reflexivity].
      intros x y Hx Hy. rewrite <- Hx.
      apply (symplectic_euler_step_keeps_length _ _ _ _ _ Hy).
    + injection Hadv as <- <-. left. exists e. reflexivity.
Qed.

(** The normalization never raises. *)
Lemma normalization_eq s :
  normalization s =
    (Ok (),
     if (normalize_every_n s <=? _norm_counter s + 1)%Z
     then set_norm_counter 0
            (set_state (normalize_angles (state s))
               (set_norm_counter (_norm_counter s + 1) s))
     else set_norm_counter (_norm_counter s + 1) s).
Proof.
  unfold normalization, mbind, Sim_bind, read, assign, pass.
  cbn [_norm_counter normalize_every_n set_norm_counter state].
  destruct (normalize_every_n s <=? _norm_counter s + 1)%Z; reflexivity.
Qed.

(** The phases before the energy monitoring: they fail only with the
    integration, and then leave the session as it is. *)
Lemma before_energy_outcome dt m s :
  (∃ e, advance dt (deriv_of m) s = (Raise e, s) ∧
        before_energy dt m s = (Raise e, s)) ∨
  (∃ st' s1, advance dt (deriv_of m) s = (Ok (), set_state st' s) ∧
             before_energy dt m s = (Ok (), s1) ∧
             length (state s1) = length (state s) ∧
             sim_time s1 = sim_time s + dt ∧
             (state s1 = st' ∨ state s1 = normalize_angles st')).
Proof.
  destruct (advance_outcome dt (deriv_of m) s) as [[e He]|(st' & Hadv & Hlen)].
  - left. exists e. split; [exact He |].
    unfold before_energy, mbind, Sim_bind. rewrite He. reflexivity.
  - right. exists st'. eexists. split; [exact Hadv |].
    unfold before_energy. unfold mbind at 1, Sim_bind. rewrite Hadv.
    unfold mbind at 1, Sim_bind. rewrite normalization_eq.
    unfold mbind, Sim_bind, read, assign. split; [reflexivity |].
    cbn [snd]. destruct (_ <=? _)%Z; cbn; rewrite ?normalize_angles_keeps_length;
      repeat split; auto.
Qed.

(** After the phases before the energy monitoring, [step] leaves the state
    and the clock alone. *)
Lemma step_after_before_energy dt s s1 :
  before_energy dt (mode s) s = (Ok (), s1) →
  state (step dt s).2 = state s1 ∧ sim_time (step dt s).2 = sim_time s1.
Proof.
  intros Hb. rewrite (step_from_before_energy dt s s1 Hb).
  refine (keeps_bind (λ x, state x = state s1 ∧ sim_time x = sim_time s1)
            (energy_monitoring dt (energy_mode_of (mode s)))
            (λ _, trail_update) _ _ s1 _).
  - apply energy_monitoring_keeps; first [frame | intros s' Hs; exact Hs].
  - intros _. apply trail_update_keeps. frame.
  - split; reflexivity.
Qed.

Lemma step_same_settings dt s : same_settings s (step dt s).2.
Proof.
  rewrite step_phases.
  refine (keeps_bind (same_settings s) (before_trail dt (mode s))
            (λ _, trail_update) _ _ s _).
  - apply before_trail_keeps; frame.
  - intros _. apply trail_update_keeps. frame.
  - repeat split.
Qed.

Lemma step_keeps_state_length dt s :
  length (state (step dt s).2) = length (state s).
Proof.
  destruct (before_energy_outcome dt (mode s) s)
    as [(e & _ & Hb)|(st' & s1 & _ & Hb & Hlen & _)].
  - rewrite (step_before_energy_raises dt s e s Hb). reflexivity.
  - rewrite (proj1 (step_after_before_energy dt s s1 Hb)). exact Hlen.
Qed.

(** X6: a [step] whose integration raises raises the same exception and
    leaves the session exactly as it was; once the integration returned, the
    clock is advanced by [dt] and the state is the integrated one, normalized
    or not, whatever the energy check and the trail update do afterwards. *)
Theorem step_integration_outcome (dt : float) (s : SimulationSession) :
  (∀ e s', advance dt (deriv_of (mode s)) s = (Raise e, s') →
     step dt s = (Raise e, s)) ∧
  (∀ sa, advance dt (deriv_of (mode s)) s = (Ok (), sa) →
     sim_time (step dt s).2 = sim_time s + dt ∧
     (state (step dt s).2 = state sa ∨
      state (step dt s).2 = normalize_angles (state sa))).
Proof.
  destruct (before_energy_outcome dt (mode s) s)
    as [(e & Hadv & Hb)|(st' & s1 & Hadv & Hb & _ & Htime & Hst)].
  - split.
    + intros e' s' Hraise. rewrite Hadv in Hraise. injection Hraise as <- _.
      apply (step_before_energy_raises dt s e s Hb).
    + intros sa Hret. rewrite Hadv in Hret. discriminate.
  - split.
    + intros e' s' Hraise. rewrite Hadv in Hraise. discriminate.
    + intros sa Hret. rewrite Hadv in Hret. injection Hret as <-.
      destruct (step_after_before_energy dt s s1 Hb) as [-> ->].
      split; [exact Htime | exact Hst].
Qed.

(** X7: [step] never assigns the settings: the mode, the parameters,
    [time_scale], [autoswitch], [energy_threshold], [energy_check_interval],
    [normalize_every_n], [trail_enabled] and [trail_max_points] are after the
    call what they were before, whether it returns or raises; and the state
    keeps its length. *)
Theorem step_keeps_settings (dt : float) (s : SimulationSession) :
  same_settings s (step dt s).2 ∧
  length (state (step dt s).2) = length (state s).
Proof.
  split; [apply step_same_settings | apply step_keeps_state_length].
Qed.

End StepOutcome.

(** A double-mode session whose state has two components only. *)
Lemma step_integration_outcome_witness :
  @step taylor_libm 0.01 (set_state [0.5; 0] default_session)
    = (Raise ValueError, set_state [0.5; 0] default_session) ∧
  (@step taylor_libm 0.5 unbound_session).1 = Raise (UnboundLocalError "e") ∧
  sim_time (@step taylor_libm 0.5 unbound_session).2 = 0 + 0.5.
Proof.
  split.
  - apply (proj1 (@step_integration_outcome taylor_libm 0.01
                    (set_state [0.5; 0] default_session))
             ValueError (set_state [0.5; 0] default_session)).
    vm_compute. reflexivity.
  - split; [vm_compute; reflexivity |].
    apply (proj2 (@step_integration_outcome taylor_libm 0.5 unbound_session)
             (advance 0.5 (@deriv_of taylor_libm (mode unbound_session))
                unbound_session).2).
    vm_compute. reflexivity.
Defined.

(** ** [set_mode] and the shape of the session *)

Section SetMode.

Lemma target_mode_cases arg :
  target_mode arg = "single" ∨ target_mode arg = "double".
Proof. unfold target_mode. destruct (_ || _); auto. Qed.

Lemma set_mode_same arg s :
  String.eqb (target_mode arg) (mode s) = true → set_mode arg s = (Ok (), s).
Proof.
  intros Heq. unfold set_mode. cbv zeta. fold (target_mode arg).
  unfold mbind at 1, Sim_bind, read. rewrite Heq. reflexivity.
Qed.

Lemma set_mode_changes arg s :
  String.eqb (target_mode arg) (mode s) = false →
  (2 ≤ length (state s))%nat →
  set_mode arg s = reset (set_mode_field (target_mode arg) s).
Proof.
  intros Heq Hlen. unfold set_mode. cbv zeta. fold (target_mode arg).
  unfold mbind at 1, Sim_bind, read. rewrite Heq.
  destruct (state s) as [|th [|w rest]] eqn:Hst; simpl in Hlen; try lia.
  unfold mbind, Sim_bind, read, assign, call, reset. rewrite Hst.
  destruct (target_mode_cases arg) as [-> | ->]; reflexivity.
Qed.

Lemma set_mode_short arg s :
  String.eqb (target_mode arg) (mode s) = false →
  (length (state s) < 2)%nat →
  set_mode arg s = (Raise ValueError, s).
Proof.
  intros Heq Hlen. unfold set_mode. cbv zeta. fold (target_mode arg).
  unfold mbind at 1, Sim_bind, read. rewrite Heq.
  unfold mbind, Sim_bind, read, assign, call.
  destruct (target_mode_cases arg) as [-> | ->];
    destruct (state s) as [|th [|w rest]]; simpl in Hlen; try lia; reflexivity.
Qed.

Lemma set_mode_idempotent arg s :
  (set_mode arg (set_mode arg s).2).2 = (set_mode arg s).2.
Proof.
  destruct (String.eqb (target_mode arg) (mode s)) eqn:Heq.
  - rewrite (set_mode_same arg s Heq). cbn [snd].
    rewrite (set_mode_same arg s Heq). reflexivity.
  - destruct (le_lt_dec 2 (length (state s))) as [Hlen|Hlen].
    + rewrite (set_mode_changes arg s Heq Hlen).
      rewrite set_mode_same; [reflexivity |]. apply String.eqb_refl.
    + rewrite (set_mode_short arg s Heq Hlen). cbn [snd].
      rewrite (set_mode_short arg s Heq Hlen). reflexivity.
Qed.

(** X8: [set_mode] towards the current mode returns without touching the
    session; a second call with the same argument never changes what the
    first left; and after a call that returns, the mode is the one selected
    by the argument: single for an argument that starts, in any letter case,
    with [single] or [einfach], double for every other argument. *)
Theorem set_mode_idempotence (arg : string) (s : SimulationSession) :
  (String.eqb (target_mode arg) (mode s) = true →
     set_mode arg s = (Ok (), s)) ∧
  (set_mode arg (set_mode arg s).2).2 = (set_mode arg s).2 ∧
  ((set_mode arg s).1 = Ok () → mode (set_mode arg s).2 = target_mode arg) ∧
  (target_mode arg = "single" ∨ target_mode arg = "double").
Proof.
  split; [apply set_mode_same |]. split; [apply set_mode_idempotent |].
  split; [| apply target_mode_cases].
  destruct (String.eqb (target_mode arg) (mode s)) eqn:Heq.
  - rewrite (set_mode_same arg s Heq). intros _. cbn [snd].
    symmetry. apply String.eqb_eq, Heq.
  - destruct (le_lt_dec 2 (length (state s))) as [Hlen|Hlen].
    + rewrite (set_mode_changes arg s Heq Hlen). intros _. reflexivity.
    + rewrite (set_mode_short arg s Heq Hlen). discriminate.
Qed.

(** X9: a [set_mode] that changes the mode is exactly [reset()] in the new
    mode when the state has at least two components: the converted state is
    discarded with the clock, the trail and the energy tracking; with a
    shorter state it raises [ValueError] and leaves the session, its mode
    included, as it was. *)
Theorem set_mode_switch (arg : string) (s : SimulationSession) :
  String.eqb (target_mode arg) (mode s) = false →
  ((2 ≤ length (state s))%nat →
     set_mode arg s = reset (set_mode_field (target_mode arg) s) ∧
     sim_time (set_mode arg s).2 = 0 ∧ trail_points (set_mode arg s).2 = [] ∧
     energy_ref (set_mode arg s).2 = None ∧
     integrator (set_mode arg s).2 = integrator s ∧
     dt_max (set_mode arg s).2 = dt_max s) ∧
  ((length (state s) < 2)%nat → set_mode arg s = (Raise ValueError, s)).
Proof.
  intros Heq. split.
  - intros Hlen. rewrite (set_mode_changes arg s Heq Hlen). repeat split.
  - apply set_mode_short, Heq.
Qed.

Lemma set_mode_switch_witness :
  set_mode "EINFACHpendel" full_trail_session
    = reset (set_mode_field "single" full_trail_session) ∧
  trail_points (set_mode "EINFACHpendel" full_trail_session).2 = [] ∧
  set_mode "" (set_state [0.5] (set_mode_field "single" default_session))
    = (Raise ValueError,
       set_state [0.5] (set_mode_field "single" default_session)).
Proof.
  destruct (set_mode_switch "EINFACHpendel" full_trail_session eq_refl)
    as [Hswitch _].
  destruct (set_mode_switch ""
              (set_state [0.5] (set_mode_field "single" default_session))
              eq_refl) as [_ Hshort].
  split; [apply Hswitch; simpl; lia |].
  split; [apply Hswitch; simpl; lia | apply Hshort; simpl; lia].
Defined.

Lemma set_mode_idempotence_witness :
  set_mode "Double" default_session = (Ok (), default_session) ∧
  (set_mode "single" (set_mode "single" default_session).2).2
    = (set_mode "single" default_session).2 ∧
  mode (set_mode "Einfach" default_session).2 = "single".
Proof.
  split; [apply (set_mode_idempotence "Double" default_session); reflexivity |].
  split; [apply (set_mode_idempotence "single" default_session) |].
  apply (set_mode_idempotence "Einfach" default_session). reflexivity.
Defined.

End SetMode.

Section WellFormed.
Context `{Libm}.

Lemma reset_well_formed s :
  mode s = "single" ∨ mode s = "double" → well_formed (reset s).2.
Proof.
  intros [Hm|Hm]; [right | left]; rewrite reset_mode, reset_state, Hm;
    split; reflexivity.
Qed.

Lemma set_mode_well_formed arg : keeps well_formed (set_mode arg).
Proof.
  intros s Hwf. destruct (String.eqb (target_mode arg) (mode s)) eqn:Heq.
  - rewrite (set_mode_same arg s Heq). exact Hwf.
  - rewrite (set_mode_changes arg s Heq)
      by (destruct Hwf as [[_ ->]|[_ ->]]; lia).
    apply reset_well_formed. cbn [mode set_mode_field].
    apply target_mode_cases.
Qed.

Lemma step_well_formed dt : keeps well_formed (step dt).
Proof.
  intros s Hwf. unfold well_formed.
  rewrite (step_keeps_state_length dt s).
  destruct (step_same_settings dt s) as (-> & _). exact Hwf.
Qed.

(** X10: the length of the state vector matches the mode (4 in double mode,
    2 in single mode) in the default session, and [step], whether it returns
    or raises, [set_mode] and [reset] keep it so. *)
Theorem state_length_matches_mode :
  well_formed default_session ∧
  (∀ dt, keeps well_formed (step dt)) ∧
  (∀ arg, keeps well_formed (set_mode arg)) ∧
  keeps well_formed reset.
Proof.
  split; [left; split; reflexivity |].
  split; [apply step_well_formed |]. split; [apply set_mode_well_formed |].
  intros s Hwf. apply reset_well_formed.
  destruct Hwf as [[-> _]|[-> _]]; auto.
Qed.

End WellFormed.

Lemma state_length_matches_mode_witness :
  well_formed (@step taylor_libm 0.01 default_session).2 ∧
  well_formed (set_mode "single" (@step taylor_libm 0.01 default_session).2).2.
Proof.
  destruct (@state_length_matches_mode taylor_libm)
    as (Hdefault & Hstep & Hmode & _).
  pose proof (Hstep 0.01 default_session Hdefault) as Hwf.
  split; [exact Hwf | apply (Hmode "single" _ Hwf)].
Defined.

(** ** The energy monitoring, check by check *)

Section Monitoring.
Context `{Libm}.

Lemma accumulated_monitoring dt em s :
  integrator (accumulated dt em s) = integrator s ∧
  base_dt (accumulated dt em s) = base_dt s ∧
  dt_max (accumulated dt em s) = dt_max s ∧
  energy_err (accumulated dt em s) = energy_err s ∧
  _energy_accum (accumulated dt em s) = _energy_accum s + dt ∧
  energy_ref (accumulated dt em s) = energy_ref (captured em s).
Proof.
  unfold accumulated, captured. destruct (energy_ref s); repeat split.
Qed.

(** The energy check in one equation: the drift recorded, then the switch or
    the adaptation of [dt_max]. *)
Lemma energy_check_eq em s :
  energy_check em s =
    let err := check_drift em s in
    let s1 := set_energy_err err (set_energy_accum 0 s) in
    if switches s err then
      let s2 := set_dt_max 0.015 (set_base_dt 0.004 (set_integrator "rk4" s1)) in
      match total_energy (state s) (params s) em with
      | Ok e => (Ok (), set_energy_ref (Some e) s2)
      | Raise _ => (Raise (UnboundLocalError "e"), s2)
      end
    else (Ok (), set_dt_max (adapted_dt_max s err) s1).
Proof.
  unfold check_drift, adapted_dt_max.
  destruct (total_energy (state s) (params s) em) as [e|ex] eqn:He.
  - rewrite (energy_check_measured em s e He). cbv zeta.
    destruct (switches _ _); [reflexivity |].
    destruct (_ <? _); reflexivity.
  - rewrite (energy_check_failed em s ex He). cbv zeta.
    destruct (switches _ _); [reflexivity |].
    destruct (_ <? _); reflexivity.
Qed.

Lemma energy_check_records em s :
  _energy_accum (energy_check em s).2 = 0 ∧
  energy_err (energy_check em s).2 = check_drift em s.
Proof.
  rewrite energy_check_eq. cbv zeta.
  destruct (switches _ _); [destruct (total_energy _ _ _) |]; split; reflexivity.
Qed.

Lemma energy_check_adapts em s :
  switches s (check_drift em s) = false →
  energy_check em s =
    (Ok (), set_dt_max (adapted_dt_max s (check_drift em s))
              (set_energy_err (check_drift em s) (set_energy_accum 0 s))).
Proof. intros Hsw. rewrite energy_check_eq. cbv zeta. rewrite Hsw. reflexivity. Qed.

(** The monitoring fields [step] ends with are those its energy monitoring
    ends with. *)
Lemma step_monitoring dt s s1 :
  before_energy dt (mode s) s = (Ok (), s1) →
  same_monitoring (energy_monitoring dt (energy_mode_of (mode s)) s1).2
    (step dt s).2.
Proof.
  intros Hb. rewrite (step_from_before_energy dt s s1 Hb).
  destruct (monitoring_then_trail dt (energy_mode_of (mode s)) s1)
    as ((_ & _ & Hi & Hbd & Hd & Hr & He & _ & Ha & _) & _).
  repeat split; assumption.
Qed.

Lemma step_damped_same_monitoring dt s :
  undamped s = false → same_monitoring s (step dt s).2.
Proof.
  intros Hd.
  pose (I := λ x, same_monitoring s x ∧ params x = params s).
  assert (Hstep : I (step dt s).2); [| exact (proj1 Hstep)].
  rewrite step_phases.
  refine (keeps_bind I (before_trail dt (mode s)) (λ _, trail_update) _ _ s _).
  - unfold before_trail. apply keeps_bind.
    + apply before_energy_keeps; frame.
    + intros _ x [Hm Hp]. rewrite energy_monitoring_damped; [split; assumption |].
      unfold undamped in *. rewrite Hp. exact Hd.
  - intros _. apply trail_update_keeps. frame.
  - repeat split.
Qed.

(** X11: while the damping coefficient is not zero, [step] leaves the whole
    energy monitoring as it is: the integrator, [base_dt], [dt_max], the
    energy reference, the recorded drift and the check accumulator keep their
    values, so neither the autoswitch nor the adaptation of [dt_max] can
    happen. *)
Theorem damped_step_skips_monitoring (dt : float) (s : SimulationSession) :
  undamped s = false →
  integrator (step dt s).2 = integrator s ∧
  base_dt (step dt s).2 = base_dt s ∧ dt_max (step dt s).2 = dt_max s ∧
  energy_ref (step dt s).2 = energy_ref s ∧
  energy_err (step dt s).2 = energy_err s ∧
  _energy_accum (step dt s).2 = _energy_accum s.
Proof. intros Hd. apply (step_damped_same_monitoring dt s Hd). Qed.

(** X12: without damping, a [step] whose integration returned adds [dt] to
    the check accumulator and, as long as the accumulator stays below
    [energy_check_interval], changes neither the integrator nor the step
    sizes nor the recorded drift; it captures an absent energy reference from
    the energy of the new state, or as 0 when [total_energy] raises. When the
    accumulator reaches the interval the check runs: the accumulator is 0
    afterwards and the recorded drift is the one of this check. *)
Theorem energy_check_cadence (dt : float) (s s1 : SimulationSession) :
  before_energy dt (mode s) s = (Ok (), s1) →
  undamped s = true →
  ((energy_check_interval s <=? _energy_accum s + dt) = false →
     _energy_accum (step dt s).2 = _energy_accum s + dt ∧
     integrator (step dt s).2 = integrator s ∧
     base_dt (step dt s).2 = base_dt s ∧ dt_max (step dt s).2 = dt_max s ∧
     energy_err (step dt s).2 = energy_err s ∧
     energy_ref (step dt s).2 =
       match energy_ref s with
       | Some r => Some r
       | None =>
           Some match total_energy (state s1) (params s)
                        (energy_mode_of (mode s)) with
                | Ok e => e
                | Raise _ => 0
                end
       end) ∧
  ((energy_check_interval s <=? _energy_accum s + dt) = true →
     _energy_accum (step dt s).2 = 0 ∧
     energy_err (step dt s).2 =
       check_drift (energy_mode_of (mode s))
         (accumulated dt (energy_mode_of (mode s)) s1)).
Proof.
  intros Hb Hd.
  destruct (before_energy_controls dt (mode s) s _ s1 Hb)
    as (_ & Hp & Hi & Hbd & Hdm & Href & Herr & Hival & Hacc & _).
  destruct (step_monitoring dt s s1 Hb) as (Hi' & Hbd' & Hd' & Hr' & He' & Ha').
  assert (Hd1 : undamped s1 = true) by (unfold undamped in *; rewrite Hp; exact Hd).
  rewrite (energy_monitoring_undamped dt _ s1 Hd1), Hival, Hacc in *.
  destruct (accumulated_monitoring dt (energy_mode_of (mode s)) s1)
    as (Hai & Hab & Had & Hae & Haa & Har).
  split; intros Hfire; rewrite Hfire in *; cbn [snd] in *.
  - rewrite Ha', Hi', Hbd', Hd', He', Hr', Haa, Hai, Hab, Had, Hae, Har.
    rewrite Hacc, Hi, Hbd, Hdm, Herr. repeat split.
    unfold captured. rewrite Href, Hp.
    destruct (energy_ref s); [exact Href | reflexivity].
  - rewrite Ha', He'. apply energy_check_records.
Qed.

End Monitoring.

Lemma damped_step_skips_monitoring_witness :
  integrator (@step taylor_libm 0.5 stale_session).2 = "rk4" ∧
  dt_max (@step taylor_libm 0.5 stale_session).2 = 0.015 ∧
  energy_err (@step taylor_libm 0.5 stale_session).2 = 0 ∧
  _energy_accum (@step taylor_libm 0.5 stale_session).2 = 0.
Proof.
  destruct (@damped_step_skips_monitoring taylor_libm 0.5 stale_session eq_refl)
    as (Hi & _ & Hd & _ & He & Ha).
  repeat split; assumption.
Defined.

Lemma energy_check_cadence_witness :
  _energy_accum (@step taylor_libm 0.01 default_session).2 = 0 + 0.01 ∧
  dt_max (@step taylor_libm 0.01 default_session).2 = 0.015 ∧
  _energy_accum (@step taylor_libm 0.5 default_session).2 = 0.
Proof.
  destruct (@energy_check_cadence taylor_libm 0.01 default_session
              (@before_energy taylor_libm 0.01 "double" default_session).2)
    as [Hquiet _]; try (vm_compute; reflexivity).
  destruct (@energy_check_cadence taylor_libm 0.5 default_session
              (@before_energy taylor_libm 0.5 "double" default_session).2)
    as [_ Hfire]; try (vm_compute; reflexivity).
  destruct Hquiet as (Ha & _ & _ & Hd & _); [vm_compute; reflexivity |].
  destruct Hfire as (Ha0 & _); [vm_compute; reflexivity |].
  repeat split; assumption.
Defined.

Section Adaptation.
Context `{Libm}.

(** X13: an energy check that does not switch the integrator adapts
    [dt_max] and nothing else of the integrator settings: when the drift is
    above half the threshold, [dt_max] becomes [max(0.001, 0.85 * dt_max)]
    and is not below 0.001; otherwise it becomes [min(upper, 1.05 * dt_max)]
    and is not above [upper], which is 0.015 for RK4 and 0.03 otherwise. This
    holds also when [total_energy] raised and the drift counts as 0. *)
Theorem dt_max_adaptation (dt : float) (s s1 : SimulationSession) :
  before_energy dt (mode s) s = (Ok (), s1) →
  undamped s = true →
  (energy_check_interval s <=? _energy_accum s + dt) = true →
  let err := check_drift (energy_mode_of (mode s))
               (accumulated dt (energy_mode_of (mode s)) s1) in
  let upper := if String.eqb (integrator s) "rk4" then 0.015 else 0.03 in
  switches s err = false →
  integrator (step dt s).2 = integrator s ∧
  base_dt (step dt s).2 = base_dt s ∧
  dt_max (step dt s).2 = adapted_dt_max s err ∧
  ((energy_threshold s * 0.5 <? err) = true →
     dt_max (step dt s).2 = Py.max 0.001 (dt_max s * 0.85) ∧
     (dt_max (step dt s).2 <? 0.001) = false) ∧
  ((energy_threshold s * 0.5 <? err) = false →
     dt_max (step dt s).2 = Py.min upper (dt_max s * 1.05) ∧
     (upper <? dt_max (step dt s).2) = false).
Proof.
  intros Hb Hd Hfire err upper Hsw.
  destruct (before_energy_controls dt (mode s) s _ s1 Hb)
    as (_ & Hp & Hi & Hbd & Hdm & _ & _ & Hival & Hacc & Ha & Hthr).
  destruct (step_monitoring dt s s1 Hb) as (Hi' & Hbd' & Hd' & _).
  assert (Hd1 : undamped s1 = true) by (unfold undamped in *; rewrite Hp; exact Hd).
  rewrite (energy_monitoring_undamped dt _ s1 Hd1), Hival, Hacc, Hfire in *.
  destruct (accumulated_monitoring dt (energy_mode_of (mode s)) s1)
    as (Hai & Hab & Had & _).
  destruct (accumulated_fields dt (energy_mode_of (mode s)) s1)
    as (_ & _ & _ & Haa & Hat & _).
  assert (Hsw1 : switches (accumulated dt (energy_mode_of (mode s)) s1) err
                 = false).
  { unfold switches in *. rewrite Hai, Haa, Hat, Hi, Ha, Hthr. exact Hsw. }
  rewrite (energy_check_adapts _ _ Hsw1) in *. fold err in Hi', Hbd', Hd'.
  setters in Hi'. setters in Hbd'. setters in Hd'.
  assert (Hadapt : adapted_dt_max (accumulated dt (energy_mode_of (mode s)) s1) err
                   = adapted_dt_max s err).
  { unfold adapted_dt_max. rewrite Hai, Had, Hat, Hi, Hdm, Hthr. reflexivity. }
  rewrite Hi', Hbd', Hd', Hai, Hab, Hadapt, Hi, Hbd.
  split; [reflexivity |]. split; [reflexivity |]. split; [reflexivity |].
  unfold adapted_dt_max. fold upper.
  split; intros Hhalf; rewrite Hhalf; split; try reflexivity.
  - apply max_not_below.
  - apply min_not_above.
Qed.

End Adaptation.

Lemma dt_max_adaptation_witness :
  dt_max (@step taylor_libm 0.5 default_session).2 = Py.min 0.015 (0.015 * 1.05) ∧
  (0.015 <? dt_max (@step taylor_libm 0.5 default_session).2) = false ∧
  integrator (@step taylor_libm 0.5 default_session).2 = "rk4".
Proof.
  destruct (@dt_max_adaptation taylor_libm 0.5 default_session
              (@before_energy taylor_libm 0.5 "double" default_session).2)
    as (Hi & _ & _ & _ & Hgrow); try (vm_compute; reflexivity).
  destruct Hgrow as [Hd Hle]; [vm_compute; reflexivity |].
  split; [exact Hd |]. split; [exact Hle | exact Hi].
Defined.

(** ** Bounds of the sub-step ceiling *)

Section Ceiling.

(** X14: [choose_dt_max] never raises; its result is never above [max_dt]
    unless it is the floor [1e-4] (a [max_dt] below the floor is overruled by
    it), it is not below the floor once the motion is faster than 0.1, and it
    is [max_dt] for a state of fewer than two components. The ceiling the
    session hands to its integrators is never above its [dt_max]. *)
Theorem choose_dt_max_bounds (st : State) (base_dt max_dt : float) :
  (∃ r, choose_dt_max st base_dt max_dt = Ok r ∧
        (r = 1e-4 ∨ (max_dt <? r) = false) ∧
        ((w_max st <=? 0.1) = false → (r <? 1e-4) = false)) ∧
  ((length st < 2)%nat → choose_dt_max st base_dt max_dt = Ok max_dt) ∧
  (∀ s : SimulationSession, (dt_max s <? chosen_dt_max s) = false).
Proof.
  split; [| split].
  - rewrite choose_dt_max_returns. eexists. split; [reflexivity |].
    unfold dt_for. destruct (w_max st <=? 0.1).
    + split; [right; apply ltb_irrefl | discriminate].
    + split; [| intros _; apply max_not_below].
      unfold Py.max at 1 2. destruct (1e-4 <? _); [right | left; reflexivity].
      apply min_not_above.
  - intros Hlen. rewrite choose_dt_max_returns.
    destruct st as [|x [|y rest]]; simpl in Hlen; try lia; reflexivity.
  - intros s. unfold chosen_dt_max. apply min_not_above.
Qed.

Lemma choose_dt_max_bounds_witness :
  choose_dt_max [0.3; 10] 0.005 0x1p-20 = Ok 1e-4 ∧
  (0x1p-20 <? 1e-4) = true ∧
  choose_dt_max [0.3] 0.005 0.02 = Ok 0.02 ∧
  (dt_max default_session <? chosen_dt_max default_session) = false.
Proof.
  destruct (choose_dt_max_bounds [0.3] 0.005 0.02) as (_ & Hshort & Hceil).
  split; [vm_compute; reflexivity |]. split; [reflexivity |].
  split; [apply Hshort; simpl; lia | apply Hceil].
Defined.

End Ceiling.

(** ** The energy of a state *)

Section TotalEnergy.
Context `{Libm}.

(** X15: [total_energy] computes the double-pendulum energy only for the
    mode tag ["double"] and a state of at least four components; for every
    other tag and for a shorter state it is the single-pendulum energy of the
    first two components. A missing [g] is reported first, before the length
    of the state is looked at. *)
Theorem total_energy_single_fallback (st : State) (prm : Params) (m : string) :
  (m ≠ "double" ∨ (length st < 4)%nat →
     total_energy st prm m = total_energy (take 2 st) prm "single") ∧
  (prm !! "g" = None → total_energy st prm m = Raise (KeyError "g")) ∧
  (is_Some (prm !! "g") → (length st < 2)%nat →
     total_energy st prm m = Raise ValueError).
Proof.
  unfold total_energy, Py.getitem. split; [| split].
  - intros Hcase. destruct (prm !! "g") as [g|]; [| reflexivity].
    cbn [mbind result_bind].
    assert (Hb : String.eqb m "double" && (4 <=? length st)%nat = false).
    { destruct Hcase as [Hm|Hlen].
      - apply String.eqb_neq in Hm. rewrite Hm. reflexivity.
      - apply Nat.leb_gt in Hlen. rewrite Hlen. apply andb_false_r. }
    rewrite Hb. cbn [String.eqb Ascii.eqb Bool.eqb andb].
    rewrite take_take. reflexivity.
  - intros ->. reflexivity.
  - intros [g ->] Hlen. cbn [mbind result_bind].
    destruct st as [|x [|y rest]]; simpl in Hlen; try lia;
      rewrite andb_false_r; reflexivity.
Qed.

End TotalEnergy.

Lemma total_energy_single_fallback_witness :
  @total_energy taylor_libm [0.5; 0; 0.25] default_params "double"
    = @total_energy taylor_libm [0.5; 0] default_params "single" ∧
  @total_energy taylor_libm [0.5; 0; 0.25; 0] ∅ "double" = Raise (KeyError "g") ∧
  @total_energy taylor_libm [0.5] default_params "double" = Raise ValueError.
Proof.
  destruct (@total_energy_single_fallback taylor_libm [0.5; 0; 0.25]
              default_params "double") as (Hfall & _).
  destruct (@total_energy_single_fallback taylor_libm [0.5; 0; 0.25; 0]
              ∅ "double") as (_ & Hg & _).
  destruct (@total_energy_single_fallback taylor_libm [0.5]
              default_params "double") as (_ & _ & Hshort).
  split; [apply Hfall; right; simpl; lia |].
  split; [apply Hg; reflexivity |].
  apply Hshort; [eexists; reflexivity | simpl; lia].
Defined.

(** ** The trail at and over its capacity *)

Section TrailCapacity.

(** X16: [_append_trail_point] never raises; below the capacity the trail
    grows by one sample, and from the capacity on its length stays what it
    was: a trail longer than [trail_max_points] (after the capacity was
    lowered) is never brought down to it, and with a capacity of 0 or less an
    empty trail stays empty. *)
Theorem append_trail_point_length (x y : float) (s : SimulationSession) :
  (_append_trail_point x y s).1 = Ok () ∧
  ((Z.of_nat (length (trail_points s)) < trail_max_points s)%Z →
     trail_points (_append_trail_point x y s).2 = trail_points s ++ [(x, y)]) ∧
  ((trail_max_points s ≤ Z.of_nat (length (trail_points s)))%Z →
     length (trail_points (_append_trail_point x y s).2)
       = length (trail_points s) ∧
     trail_points (_append_trail_point x y s).2
       = drop 1 (trail_points s ++ [(x, y)])).
Proof.
  rewrite append_trail_point_fifo. cbn [fst snd trail_points set_trail_points].
  split; [reflexivity |].
  destruct (fifo_push_order (trail_max_points s) (trail_points s) (x, y))
    as [[Hlt ->]|[Hge ->]]; split; intros Hcase; try lia; try reflexivity.
  split; [| reflexivity].
  rewrite length_drop, length_app. simpl. lia.
Qed.

Lemma append_trail_point_length_witness :
  length (trail_points
            (_append_trail_point 3 3
               (set_trail_max_points 1 full_trail_session)).2) = 2%nat ∧
  trail_points (_append_trail_point 3 3
                  (set_trail_max_points 0 default_session)).2 = [] ∧
  trail_points (_append_trail_point 3 3 default_session).2 = [(3, 3)].
Proof.
  split; [| split].
  - apply (append_trail_point_length 3 3
             (set_trail_max_points 1 full_trail_session)). simpl. lia.
  - apply (append_trail_point_length 3 3
             (set_trail_max_points 0 default_session)). simpl. lia.
  - apply (append_trail_point_length 3 3 default_session). simpl. lia.
Defined.

End TrailCapacity.

(** ** Positions and the plot extent *)

Section Plot.
Context `{Libm}.

(** X17: [positions_from_state] reads the angles only: the angular
    velocities and the components beyond the fourth do not matter, and with
    fewer than four components the second position is the first. A missing
    [l1] is a [KeyError] whatever the state. *)
Theorem positions_from_state_reads_angles (prm : Params) :
  (∀ th1 w1 th2 w2 rest w1' w2',
     positions_from_state (th1 :: w1 :: th2 :: w2 :: rest) prm
       = positions_from_state [th1; w1'; th2; w2'] prm) ∧
  (∀ th w w', positions_from_state [th; w] prm
                = positions_from_state [th; w'] prm) ∧
  (∀ st p1 p2, (length st < 4)%nat →
     positions_from_state st prm = Ok (p1, p2) → p2 = p1) ∧
  (∀ st, prm !! "l1" = None →
     positions_from_state st prm = Raise (KeyError "l1")).
Proof.
  split; [| split; [| split]].
  - intros. unfold positions_from_state.
    cbn [length Nat.leb take Py.unpack4]. rewrite take_0. reflexivity.
  - intros. reflexivity.
  - intros st p1 p2. apply positions_from_state_short.
  - intros st Hl. unfold positions_from_state, Py.getitem. rewrite Hl.
    reflexivity.
Qed.

(** X18: [_origin_and_limits] raises [KeyError] without [l1]; when it
    returns, the origin is the hinge [(0, 0)] and the extent is not below
    1; outside double mode the extent is [max(1, l1 + 0)], whatever [l2]. *)
Theorem origin_and_limits_extent (sim : SimulationSession) :
  (params sim !! "l1" = None →
     _origin_and_limits sim = Raise (KeyError "l1")) ∧
  (∀ o ext, _origin_and_limits sim = Ok (o, ext) →
     o = (0, 0) ∧ (ext <? 1) = false) ∧
  (∀ l1, mode sim ≠ "double" → params sim !! "l1" = Some l1 →
     _origin_and_limits sim = Ok ((0, 0), Py.max 1 (l1 + 0))).
Proof.
  unfold _origin_and_limits, Py.getitem. split; [| split].
  - intros ->. reflexivity.
  - intros o ext. destruct (params sim !! "l1") as [l1|]; [| discriminate].
    cbn [mbind result_bind mret result_ret]. intros [= <- <-].
    split; [reflexivity | apply max_not_below].
  - intros l1 Hm ->. apply String.eqb_neq in Hm. rewrite Hm. reflexivity.
Qed.

End Plot.

Lemma positions_from_state_reads_angles_witness :
  @positions_from_state taylor_libm [0.5; 7; 0.25; -3; 9] default_params
    = @positions_from_state taylor_libm [0.5; 0; 0.25; 0] default_params ∧
  @positions_from_state taylor_libm [0.5; 7] ∅ = Raise (KeyError "l1").
Proof.
  destruct (@positions_from_state_reads_angles taylor_libm default_params)
    as (Hangles & _).
  destruct (@positions_from_state_reads_angles taylor_libm ∅)
    as (_ & _ & _ & Hkey).
  split; [apply Hangles | apply Hkey; reflexivity].
Defined.

Lemma origin_and_limits_extent_witness :
  _origin_and_limits single_session = Ok ((0, 0), 1) ∧
  _origin_and_limits (set_params ∅ default_session) = Raise (KeyError "l1").
Proof.
  destruct (origin_and_limits_extent single_session) as (_ & _ & Hsingle).
  destruct (origin_and_limits_extent (set_params ∅ default_session))
    as (Hkey & _).
  split; [apply (Hsingle 1); [discriminate | reflexivity] |].
  apply Hkey. reflexivity.
Defined.

(** ** A time increment of zero *)

Section ZeroIncrement.

(** The divisor [max(1e-9, dt_max)] is a positive number or infinity. *)
Lemma max_floor_positive (dt_max : float) :
  (∃ m e, Prim2SF (Py.max 1e-9 dt_max) = S754_finite false m e) ∨
  Prim2SF (Py.max 1e-9 dt_max) = S754_infinity false.
Proof.
  unfold Py.max. destruct (1e-9 <? dt_max) eqn:Hlt.
  - rewrite ltb_spec in Hlt. unfold SFltb in Hlt.
    change (Prim2SF 1e-9)
      with (S754_finite false 4835703278458517 (-82)) in Hlt.
    destruct (Prim2SF dt_max) as [s|s| |s m e]; unfold SFcompare in Hlt.
    + destruct s; discriminate.
    + destruct s; [discriminate | right; reflexivity].
    + discriminate.
    + destruct s; [discriminate | left; eauto].
  - left. eexists _, _. reflexivity.
Qed.

Lemma substep_count_zero (dt_max : float) : substep_count 0 dt_max = Ok 1%Z.
Proof.
  unfold substep_count, Py.ceil. change (abs 0) with 0%float.
  rewrite div_spec. change (Prim2SF 0) with (S754_zero false).
  destruct (max_floor_positive dt_max) as [(m & e & ->) | ->]; reflexivity.
Qed.

(** X19: for a time increment of zero the sub-stepping takes exactly one
    sub-step, of size 0, whatever the ceiling: [rk4_integrate_substeps] is
    one [rk4_step] with [dt = 0], so the derivative is evaluated, and what it
    raises is raised, also when no time passes. *)
Theorem zero_increment_takes_one_step (st : State) (dt_max : float)
    (prm : Params) (deriv : Deriv) :
  substep_count 0 dt_max = Ok 1%Z ∧
  rk4_integrate_substeps st 0 dt_max prm deriv = rk4_step st 0 prm deriv ∧
  (∀ e, deriv st prm = Raise e →
     rk4_integrate_substeps st 0 dt_max prm deriv = Raise e).
Proof.
  assert (Hone : rk4_integrate_substeps st 0 dt_max prm deriv
                 = rk4_step st 0 prm deriv).
  { unfold rk4_integrate_substeps. rewrite substep_count_zero.
    cbn [mbind result_bind]. cbv zeta.
    change (Z.to_nat 1) with 1%nat.
    change (0 / Py.float_of_int 1) with 0%float.
    cbn [Py.for_range]. destruct (rk4_step st 0 prm deriv); reflexivity. }
  split; [apply substep_count_zero |]. split; [exact Hone |].
  intros e He. rewrite Hone. unfold rk4_step. rewrite He. reflexivity.
Qed.

End ZeroIncrement.

Lemma zero_increment_takes_one_step_witness :
  rk4_integrate_substeps [0.5; 0] 0 0.015 ∅
      (@single_pendulum_derivatives taylor_libm)
    = Raise (KeyError "g") ∧
  substep_count 0 0 = Ok 1%Z.
Proof.
  destruct (zero_increment_takes_one_step [0.5; 0] 0.015 ∅
              (@single_pendulum_derivatives taylor_libm)) as (_ & _ & Hraise).
  destruct (zero_increment_takes_one_step [0.5; 0] 0 ∅
              (@single_pendulum_derivatives taylor_libm)) as (Hcount & _).
  split; [apply Hraise; reflexivity | exact Hcount].
Defined.

(** Examples for the derivative and step theorems. *)
Lemma single_pendulum_derivatives_shape_witness :
  @single_pendulum_derivatives taylor_libm [0.5] default_params
    = Raise ValueError ∧
  @single_pendulum_derivatives taylor_libm [0.5; 2] (<["l1" := 1]> ∅)
    = Raise (KeyError "g") ∧
  ∃ a, @single_pendulum_derivatives taylor_libm [0.5; 2; 9] default_params
       = Ok [2; a].
Proof.
  destruct (@single_pendulum_derivatives_shape taylor_libm [0.5] default_params)
    as (Hshort & _).
  destruct (@single_pendulum_derivatives_shape taylor_libm [0.5; 2]
              (<["l1" := 1]> ∅)) as (_ & Hg & _).
  destruct (@single_pendulum_derivatives_shape taylor_libm [0.5; 2; 9]
              default_params) as (_ & _ & _ & Hshape).
  split; [apply Hshort; simpl; lia |].
  split; [apply Hg; [simpl; lia | reflexivity] |].
  destruct (Hshape _ eq_refl) as (omega & a & Hd & Hw & _).
  exists a. injection Hw as <-. rewrite <- Hd. reflexivity.
Defined.

Lemma double_pendulum_derivatives_shape_witness :
  @double_pendulum_derivatives taylor_libm [0.5; 2; 0.25] default_params
    = Raise ValueError ∧
  ∃ a1 a2,
    @double_pendulum_derivatives taylor_libm [0.5; 2; 0.25; -3] default_params
      = Ok [2; a1; -3; a2].
Proof.
  destruct (@double_pendulum_derivatives_shape taylor_libm [0.5; 2; 0.25]
              default_params) as (Hshort & _).
  destruct (@double_pendulum_derivatives_shape taylor_libm [0.5; 2; 0.25; -3]
              default_params) as (_ & Hshape).
  split; [apply Hshort; simpl; lia |].
  destruct (Hshape _ eq_refl) as (w1 & a1 & w2 & a2 & Hd & Hw1 & Hw2 & _).
  exists a1, a2. injection Hw1 as <-. injection Hw2 as <-. rewrite <- Hd.
  reflexivity.
Defined.

Lemma symplectic_euler_step_length_witness :
  symplectic_euler_step [1; 2; 3] 0.5 ∅ (λ st _, Ok st)
    = Ok [1 + 0.5 * 1; 2 + 0.5 * 2; 3 + 0.5 * 3] ∧
  ∃ k, [1; 2; 3] !! 2%nat = Some k ∧
       [1 + 0.5 * 1; 2 + 0.5 * 2; 3 + 0.5 * 3] !! 2%nat = Some (3 + 0.5 * k).
Proof.
  split; [reflexivity |].
  apply (proj2 (symplectic_euler_step_length [1; 2; 3] 0.5 ∅ (λ st _, Ok st))
           ltac:(discriminate) ltac:(discriminate)
           [1 + 0.5 * 1; 2 + 0.5 * 2; 3 + 0.5 * 3] [1; 2; 3]
           eq_refl eq_refl 2%nat 3 eq_refl).
Defined.
